(** * netviz: the event ingestion and analysis pipeline

    A shallow embedding of the Python server of netviz
    ([connection_handler.py], [threat_detector.py], [websocket_handler.py])
    and the properties of its specification checked against it.

    Conventions of the embedding.
    - Python [int] is [Z].  Python [float] values (clock readings of
      [time.time()], the anomaly score) are rationals [Q]: every finite
      double is a rational; the rounding of float arithmetic is not modelled.
    - A Python [dict] that the code iterates over is an insertion-ordered
      association list ([Py.dict]); dictionaries and sets that are only
      looked up are stdpp's [gmap] and [gset].
    - What the code reads from its environment (the wall clock, the process
      table, the numpy statistics, the outcome of a socket send) is an
      explicit argument of the embedded function.
    - The [async with self.lock] regions are run to completion: one call of
      an embedded function is one critical section. *)

From Stdlib Require Import ZArith QArith Lqa Lia Sorted.
From stdpp Require Import gmap strings list fin_maps pretty.

Open Scope Z_scope.

(** ** Python primitives used by the server *)

Module Py.

(** [a < b] on floats. *)
Definition Qltb (a b : Q) : bool := negb (Qle_bool b a).

(** [max(a, b)]: the first argument unless the second is strictly larger. *)
Definition max (a b : Q) : Q := if Qltb a b then b else a.

(** [min(a, b)]: the first argument unless the second is strictly smaller. *)
Definition min (a b : Q) : Q := if Qltb b a then b else a.

(** [int(x)]: truncation toward zero. *)
Definition int (x : Q) : Z := Z.quot (Qnum x) (Zpos (Qden x)).

(** *** Strings *)

Definition lower_ascii (c : Ascii.ascii) : Ascii.ascii :=
  let n := Ascii.N_of_ascii c in
  if ((65 <=? n) && (n <=? 90))%N then Ascii.ascii_of_N (n + 32) else c.

(** [s.lower()] on the ASCII range: the letters [A] to [Z] are lowered and
    every other byte is kept, where Python also lowers the letters outside
    ASCII. *)
Fixpoint lower (s : string) : string :=
  match s with
  | EmptyString => EmptyString
  | String c s' => String (lower_ascii c) (lower s')
  end.

(** [s.startswith(p)]. *)
Fixpoint startswith (p s : string) : bool :=
  match p with
  | EmptyString => true
  | String c p' =>
      match s with
      | EmptyString => false
      | String d s' => if Ascii.eqb c d then startswith p' s' else false
      end
  end.

(** [needle in hay] for strings. *)
Fixpoint contains (needle hay : string) : bool :=
  startswith needle hay ||
  match hay with
  | EmptyString => false
  | String _ hay' => contains needle hay'
  end.

(** [sep.join(parts)]. *)
Fixpoint join (sep : string) (parts : list string) : string :=
  match parts with
  | [] => ""
  | [p] => p
  | p :: ps => p +:+ sep +:+ join sep ps
  end.

(** [any(p(x) for x in l)]. *)
Definition any {A} (p : A → bool) (l : list A) : bool := existsb p l.

(** *** Insertion-ordered dictionaries *)

Abbreviation dict K V := (list (K * V)).

Section Dict.
Context {K V : Type} `{EqDecision K}.

Fixpoint get (k : K) (d : dict K V) : option V :=
  match d with
  | [] => None
  | (k', v) :: d' => if decide (k = k') then Some v else get k d'
  end.

Definition mem (k : K) (d : dict K V) : bool :=
  match get k d with Some _ => true | None => false end.

(** [d[k] = v]: an existing key keeps its place, a new key goes last. *)
Fixpoint set (k : K) (v : V) (d : dict K V) : dict K V :=
  match d with
  | [] => [(k, v)]
  | (k', v') :: d' =>
      if decide (k = k') then (k, v) :: d' else (k', v') :: set k v d'
  end.

(** [del d[k]]. *)
Fixpoint del (k : K) (d : dict K V) : dict K V :=
  match d with
  | [] => []
  | (k', v') :: d' =>
      if decide (k = k') then d' else (k', v') :: del k d'
  end.

Definition keys (d : dict K V) : list K := d.*1.
Definition values (d : dict K V) : list V := d.*2.
End Dict.

(** *** Sorting: [sorted] and [list.sort] are stable *)

Section Sort.
Context {A : Type} (key : A → Z).

(** Insertion in a list sorted by descending key; among equal keys the
    inserted element, which comes first in the input, stays first. *)
Fixpoint insert_desc (x : A) (l : list A) : list A :=
  match l with
  | [] => [x]
  | y :: l' => if key x <? key y then y :: insert_desc x l' else x :: l
  end.

(** The order of a list sorted by descending key. *)
Definition descending (x y : A) : Prop := key y ≤ key x.

(** [sorted(l, key=key, reverse=True)]. *)
Definition sorted_desc (l : list A) : list A := foldr insert_desc [] l.

Fixpoint insert_asc (x : A) (l : list A) : list A :=
  match l with
  | [] => [x]
  | y :: l' => if key y <? key x then y :: insert_asc x l' else x :: l
  end.

(** [sorted(l, key=key)]. *)
Definition sorted_asc (l : list A) : list A := foldr insert_asc [] l.
End Sort.

(** *** Sequences *)

(** [l[-limit:]], with Python's normalisation of the start index:
    [-limit] counts from the end when negative and is clamped to the
    length of the list. *)
Definition slice_last {A} (limit : Z) (l : list A) : list A :=
  let len := Z.of_nat (length l) in
  let start := - limit in
  let start := if start <? 0 then Z.max 0 (start + len) else Z.min start len in
  drop (Z.to_nat start) l.

(** [deque(maxlen=n).append(x)]: the oldest entries fall off the left. *)
Definition deque_append {A} (maxlen : Z) (x : A) (q : list A) : list A :=
  let q' := q ++ [x] in
  drop (length q' - Z.to_nat maxlen) q'.

(** [sum(l)]. *)
Definition sum (l : list Z) : Z := foldr Z.add 0 l.

(** [len(set(l))]. *)
Definition count_distinct `{Countable A} (l : list A) : Z :=
  Z.of_nat (size (list_to_set l : gset A)).

End Py.

(** ** Data model *)

(** The dictionary built by [EBPFLoader.handle_connection_event] from one
    kernel record. *)
Record RawEvent := {
  timestamp : Z;          (* kernel clock, nanoseconds *)
  pid : Z;
  comm : string;
  cmdline : string;
  saddr : Z;
  daddr : Z;
  sport : Z;
  dport : Z;
  protocol : Z
}.

(** What [psutil.Process(pid)] and its accessors answer. *)
Record ProcessInfo := {
  ps_name : string;
  ps_cmdline : list string;
  ps_exe : string;
  ps_ppid : Z;
  ps_username : string;
  ps_create_time : Q;
  ps_status : string
}.

Inductive ProcessLookup :=
| ProcessFound (info : ProcessInfo)
| NoSuchProcess                    (* also its subclass [psutil.ZombieProcess] *)
| AccessDenied
| LookupError.                     (* any other exception *)

(** The keys [enrich_connection_event] adds to the copy of the raw event. *)
Record Enrichment := {
  src_ip : string;
  dst_ip : string;
  protocol_str : string;
  process_name : string;
  cmdline_full : string;
  exe_path : string;
  parent_pid : Z;
  username : string;
  create_time : Q;
  status : string;
  country_code : string;
  is_private : bool;
  is_safe_port : bool
}.

(** The event dictionary as it travels through the pipeline.  [enrichment]
    is [None] when [enrich_connection_event] fell into its outer [except]
    and returned the raw event; [threat_score] and [is_suspicious] are [None]
    until [process_connection_event] assigns them. *)
Record EnrichedEvent := {
  raw : RawEvent;
  enrichment : option Enrichment;
  threat_score : option Z;
  is_suspicious : option bool
}.

(** [event.get(key, default)] for the keys the analyzer reads. *)
Definition get_dst_ip (e : EnrichedEvent) : string :=
  from_option dst_ip "" (enrichment e).
Definition get_process_name (e : EnrichedEvent) : string :=
  from_option process_name "" (enrichment e).
Definition get_cmdline_full (e : EnrichedEvent) : string :=
  from_option cmdline_full "" (enrichment e).
Definition get_exe_path (e : EnrichedEvent) : string :=
  from_option exe_path "" (enrichment e).
Definition get_is_private (e : EnrichedEvent) : bool :=
  from_option is_private false (enrichment e).

(** ** threat_detector.py *)

Module ThreatDetector.

(** One entry of a per-pid [deque(maxlen=100)]. *)
Record Conn := {
  c_timestamp : Q;
  c_dst_ip : string;
  c_dst_port : Z
}.

Record t := {
  ip_frequency : gmap string Z;
  process_connection_history : gmap Z (list Conn);
  process_first_connection : gset Z;
  total_analyzed : Z;
  suspicious_detected : Z;
  connection_features : list (list Q)
}.

Definition safe_ports : gset Z :=
  {[ 80; 443; 22; 53; 25; 587; 993; 995; 21; 110; 143; 8080; 8443; 9418 ]}.

Definition common_dns_servers : gset string :=
  {[ "8.8.8.8"; "8.8.4.4"; "1.1.1.1"; "1.0.0.1"; "208.67.222.222";
     "9.9.9.9"; "149.112.112.112" ]}.

Definition suspicious_ports : gset Z :=
  {[ 1337; 31337; 4444; 5555; 6667; 12345; 54321 ]}.

Definition anomaly_threshold : Q := 7 # 10.

(** [ThreatDetector.__init__]. *)
Definition init : t := {|
  ip_frequency := ∅;
  process_connection_history := ∅;
  process_first_connection := ∅;
  total_analyzed := 0;
  suspicious_detected := 0;
  connection_features := []
|}.

(** What one call of [analyze_connection] reads from outside: the clock at
    each [time.time()] and [datetime.now()] it reaches, and the value numpy
    computes for [np.mean(z_scores)]. *)
Record Env := {
  now_analyze : Q;
  now_frequency : Q;
  now_patterns : Q;
  timing_hour : Z;
  timing_weekday : Z;
  feature_hour : Z;
  feature_weekday : Z;
  mean_z_score : Q
}.

(** [self.process_connection_history[pid]]; the key is present whenever the
    rules run, since [analyze_connection] appends to it first. *)
Definition history (s : t) (p : Z) : list Conn :=
  default [] (process_connection_history s !! p).

(** Rule 1. *)
Definition _check_destination_rarity (s : t) (e : EnrichedEvent) : Z :=
  let dst := get_dst_ip e in
  if String.eqb dst "" then 0
  else if bool_decide (dst ∈ common_dns_servers) then 0
  else
    let total_connections := total_analyzed s in
    let ip_count := default 0 (ip_frequency s !! dst) in
    if total_connections <? 10 then 0
    else
      let freq := (inject_Z ip_count / inject_Z total_connections)%Q in
      if Py.Qltb freq (1 # 1000) then 20
      else if Py.Qltb freq (5 # 1000) then 10
      else if Py.Qltb freq (1 # 100) then 5
      else 0.

(** The connections of the last [window] seconds. *)
Definition recent (now window : Q) (h : list Conn) : list Conn :=
  filter (λ c, Qle_bool (now - c_timestamp c) window = true) h.

(** [dst_counts[conn['dst_ip']] += 1] over the recent connections. *)
Definition dst_counts (l : list Conn) : gmap string Z :=
  foldl (λ m c, <[c_dst_ip c := default 0 (m !! c_dst_ip c) + 1]> m) ∅ l.

(** [max(dst_counts.values())] for a non-empty dictionary. *)
Definition max_value (m : gmap string Z) : Z :=
  map_fold (λ _ v acc, Z.max v acc) 0 m.

(** The score of rule 2 on the connections of the window. *)
Definition frequency_score (recent_connections : list Conn) : Z :=
  let connection_rate := Z.of_nat (length recent_connections) in
  let score :=
    if 100 <? connection_rate then 25
    else if 50 <? connection_rate then 15
    else if 20 <? connection_rate then 10
    else if 10 <? connection_rate then 5
    else 0 in
  if 3 <=? Z.of_nat (length recent_connections) then
    let max_dst_count := max_value (dst_counts recent_connections) in
    if 20 <? max_dst_count then score + 15 else score
  else score.

(** Rule 2. *)
Definition _check_connection_frequency (s : t) (env : Env)
    (e : EnrichedEvent) : Z :=
  frequency_score (recent (now_frequency env) 60 (history s (pid (raw e)))).

(** Rule 3. *)
Definition _check_suspicious_ports (e : EnrichedEvent) : Z :=
  let dst_port := dport (raw e) in
  let score := if bool_decide (dst_port ∈ suspicious_ports) then 30 else 0 in
  let score :=
    if (49152 <? dst_port) && negb (bool_decide (dst_port ∈ safe_ports))
    then score + 10 else score in
  if negb (bool_decide (dst_port ∈ safe_ports)) && (dst_port <? 1024)
  then score + 15 else score.

(** Rule 4. *)
Definition _check_unusual_timing (env : Env) (e : EnrichedEvent) : Z :=
  let current_hour := timing_hour env in
  let score :=
    if (2 <=? current_hour) && (current_hour <=? 6) then 10 else 0 in
  if 5 <=? timing_weekday env then
    if negb (bool_decide (dport (raw e) ∈ safe_ports))
    then score + 5 else score
  else score.

Definition system_processes : gset string :=
  {[ "systemd"; "kernel"; "init"; "kthreadd" ]}.

(** Rule 5; it records the pid in [process_first_connection]. *)
Definition _check_first_time_process (s : t) (e : EnrichedEvent) : Z * t :=
  let p := pid (raw e) in
  if bool_decide (p ∈ process_first_connection s) then (0, s)
  else
    let s' := {|
      ip_frequency := ip_frequency s;
      process_connection_history := process_connection_history s;
      process_first_connection := {[ p ]} ∪ process_first_connection s;
      total_analyzed := total_analyzed s;
      suspicious_detected := suspicious_detected s;
      connection_features := connection_features s
    |} in
    if bool_decide (Py.lower (get_process_name e) ∈ system_processes)
    then (30, s') else (15, s').

(** Rule 6. *)
Definition _check_geographic_anomalies (e : EnrichedEvent) : Z :=
  if get_is_private e then 0 else 5.

Definition suspicious_names : list string :=
  [ "nc"; "ncat"; "netcat"; "python"; "perl"; "bash"; "sh" ].

Definition suspicious_args : list string :=
  [ "-e"; "--execute"; "/bin/sh"; "/bin/bash"; "reverse"; "shell" ].

(** Rule 7. *)
Definition _check_process_anomalies (e : EnrichedEvent) : Z :=
  let name := Py.lower (get_process_name e) in
  let cmd := Py.lower (get_cmdline_full e) in
  let exe := Py.lower (get_exe_path e) in
  let score :=
    if Py.any (λ sus_name, Py.contains sus_name name) suspicious_names
    then 20 else 0 in
  let score :=
    if Py.any (λ sus_arg, Py.contains sus_arg cmd) suspicious_args
    then score + 25 else score in
  let score :=
    if Py.contains "/tmp/" exe || Py.contains "/var/tmp/" exe
    then score + 30 else score in
  if negb (String.eqb exe "") && Py.startswith "/." exe
  then score + 20 else score.

(** The loop over the sorted ports: the length of the run of consecutive
    ports that ends at the last one. *)
Fixpoint sequential_run (prev count : Z) (ports : list Z) : Z :=
  match ports with
  | [] => count
  | p :: ports' =>
      sequential_run p (if p =? prev + 1 then count + 1 else 1) ports'
  end.

Definition sequential_count (ports : list Z) : Z :=
  match ports with
  | [] => 1
  | p :: ports' => sequential_run p 1 ports'
  end.

(** Rule 8. *)
Definition _check_connection_patterns (s : t) (env : Env)
    (e : EnrichedEvent) : Z :=
  let p := pid (raw e) in
  let score :=
    match process_connection_history s !! p with
    | Some h =>
        let unique_destinations := Py.count_distinct (c_dst_ip <$> h) in
        if 50 <? unique_destinations then 15
        else if 20 <? unique_destinations then 10
        else if 10 <? unique_destinations then 5
        else 0
    | None => 0
    end in
  let recent_connections := recent (now_patterns env) 30 (history s p) in
  if 5 <=? Z.of_nat (length recent_connections) then
    let ports := Py.sorted_asc id (c_dst_port <$> recent_connections) in
    if 5 <=? sequential_count ports then score + 20 else score
  else score.

(** [_extract_features]. *)
Definition _extract_features (env : Env) (e : EnrichedEvent) : list Q :=
  [ inject_Z (dport (raw e)) / 65535;
    inject_Z (sport (raw e)) / 65535;
    inject_Z (Z.b2z (get_is_private e));
    inject_Z (Z.b2z (from_option is_safe_port true (enrichment e)));
    inject_Z (Z.of_nat (String.length (get_process_name e))) / 50;
    inject_Z (Z.of_nat (String.length (get_cmdline_full e))) / 200;
    inject_Z (feature_hour env) / 24;
    inject_Z (feature_weekday env) / 7 ]%Q.

Definition set_connection_features (s : t) (fs : list (list Q)) : t := {|
  ip_frequency := ip_frequency s;
  process_connection_history := process_connection_history s;
  process_first_connection := process_first_connection s;
  total_analyzed := total_analyzed s;
  suspicious_detected := suspicious_detected s;
  connection_features := fs
|}.

(** [_ml_anomaly_detection].  The mean of the z-scores is numpy's; the
    bookkeeping of the sample list is the code's. *)
Definition _ml_anomaly_detection (s : t) (env : Env) (e : EnrichedEvent)
    : Q * t :=
  let features := _extract_features env e in
  if Z.of_nat (length (connection_features s)) <? 100 then
    (0%Q, set_connection_features s (connection_features s ++ [features]))
  else
    let anomaly_score := mean_z_score env in
    let normalized_score := Py.min 1 (anomaly_score / 3) in
    if Py.Qltb normalized_score anomaly_threshold then
      let fs := connection_features s ++ [features] in
      let fs :=
        if 10000 <? Z.of_nat (length fs) then Py.slice_last 5000 fs
        else fs in
      (normalized_score, set_connection_features s fs)
    else (normalized_score, s).

(** The bookkeeping at the head of [analyze_connection]: count the
    analysis, count the destination, append to the history of the pid. *)
Definition track (s : t) (env : Env) (e : EnrichedEvent) : t :=
  let dst := get_dst_ip e in
  let p := pid (raw e) in
  {| ip_frequency :=
       <[dst := default 0 (ip_frequency s !! dst) + 1]> (ip_frequency s);
     process_connection_history :=
       <[p := Py.deque_append 100
                {| c_timestamp := now_analyze env;
                   c_dst_ip := dst;
                   c_dst_port := dport (raw e) |}
                (history s p)]> (process_connection_history s);
     process_first_connection := process_first_connection s;
     total_analyzed := total_analyzed s + 1;
     suspicious_detected := suspicious_detected s;
     connection_features := connection_features s |}.

Definition count_suspicious (s : t) : t := {|
  ip_frequency := ip_frequency s;
  process_connection_history := process_connection_history s;
  process_first_connection := process_first_connection s;
  total_analyzed := total_analyzed s;
  suspicious_detected := suspicious_detected s + 1;
  connection_features := connection_features s
|}.

(** [analyze_connection].  The score is an [int] while the rules add to
    it and may be a [float] once it has met the anomaly score, so it is
    carried as a rational from there on. *)
Definition analyze_connection (s : t) (env : Env) (e : EnrichedEvent)
    : Z * t :=
  let s := track s env e in
  let threat_score := 0 in
  let threat_score := threat_score + _check_destination_rarity s e in
  let threat_score := threat_score + _check_connection_frequency s env e in
  let threat_score := threat_score + _check_suspicious_ports e in
  let threat_score := threat_score + _check_unusual_timing env e in
  let '(first_time, s) := _check_first_time_process s e in
  let threat_score := threat_score + first_time in
  let threat_score := threat_score + _check_geographic_anomalies e in
  let threat_score := threat_score + _check_process_anomalies e in
  let threat_score := threat_score + _check_connection_patterns s env e in
  let '(ml_score, s) := _ml_anomaly_detection s env e in
  let threat_score := Py.max (inject_Z threat_score) (ml_score * 50) in
  let threat_score := Py.min 100 (Py.max 0 threat_score) in
  let s := if Qle_bool 50 threat_score then count_suspicious s else s in
  (Py.int threat_score, s).

(** The eight rule contributions of one analysis, in the order the code
    adds them. *)
Definition rule_contributions (s : t) (env : Env) (e : EnrichedEvent)
    : list Z :=
  let s := track s env e in
  [ _check_destination_rarity s e;
    _check_connection_frequency s env e;
    _check_suspicious_ports e;
    _check_unusual_timing env e;
    (_check_first_time_process s e).1;
    _check_geographic_anomalies e;
    _check_process_anomalies e;
    _check_connection_patterns (_check_first_time_process s e).2 env e ].

(** The anomaly score of one analysis. *)
Definition anomaly_score (s : t) (env : Env) (e : EnrichedEvent) : Q :=
  (_ml_anomaly_detection (_check_first_time_process (track s env e) e).2
     env e).1.

(** A run of analyses, oldest first. *)
Definition analyze_all (s : t) (steps : list (Env * EnrichedEvent)) : t :=
  foldl (λ s step, (analyze_connection s step.1 step.2).2) s steps.

(** *** The per-process report *)

Inductive RiskLevel := Critical | High | Medium | Low.

(** The dictionary returned by [get_process_threat_analysis];
    [ta_connection_rate] is the rate before [round(connection_rate, 2)]. *)
Record ThreatAnalysis := {
  ta_risk_level : RiskLevel;
  ta_risk_score : Z;
  ta_risk_factors : list string;
  ta_total_connections : Z;
  ta_unique_destinations : Z;
  ta_unique_ports : Z;
  ta_connection_rate : Q
}.

Inductive Analysis :=
| ProcessNotFound                    (* {"error": "Process not found"} *)
| NoConnectionsFound                 (* {"error": "No connections found"} *)
| Report (r : ThreatAnalysis).

(** The body of [get_process_threat_analysis] on a non-empty history whose
    oldest entry is [first]. *)
Definition threat_report (now : Q) (first : Conn) (connections : list Conn)
    : ThreatAnalysis :=
  let unique_destinations := Py.count_distinct (c_dst_ip <$> connections) in
  let unique_ports := Py.count_distinct (c_dst_port <$> connections) in
  let connection_rate :=
    (inject_Z (Z.of_nat (length connections))
     / Py.max 1 ((now - c_timestamp first) / 60))%Q in
  let risk_factors :=
    (if Py.Qltb 50 connection_rate then ["High connection frequency"] else [])
    ++ (if 20 <? unique_destinations then ["Many unique destinations"] else [])
    ++ (if 10 <? unique_ports then ["Port scanning pattern"] else []) in
  let risk_score :=
    Py.min 100 (connection_rate * (1 # 2)
                + inject_Z (unique_destinations * 2)
                + inject_Z (unique_ports * 3))%Q in
  let risk_level :=
    if Qle_bool 75 risk_score then Critical
    else if Qle_bool 50 risk_score then High
    else if Qle_bool 25 risk_score then Medium
    else Low in
  {| ta_risk_level := risk_level;
     ta_risk_score := Py.int risk_score;
     ta_risk_factors := risk_factors;
     ta_total_connections := Z.of_nat (length connections);
     ta_unique_destinations := unique_destinations;
     ta_unique_ports := unique_ports;
     ta_connection_rate := connection_rate |}.

(** [get_process_threat_analysis]; [now] is the clock it reads. *)
Definition get_process_threat_analysis (s : t) (now : Q) (p : Z) : Analysis :=
  match process_connection_history s !! p with
  | None => ProcessNotFound
  | Some [] => NoConnectionsFound
  | Some (first :: rest) => Report (threat_report now first (first :: rest))
  end.

(** The dictionary returned by [get_statistics], without its uptime. *)
Record Statistics := {
  st_total_analyzed : Z;
  st_suspicious_detected : Z;
  st_suspicious_percentage : Q;
  st_unique_ips_tracked : Z;
  st_processes_tracked : Z;
  st_ml_training_samples : Z
}.

(** [get_statistics]. *)
Definition get_statistics (s : t) : Statistics := {|
  st_total_analyzed := total_analyzed s;
  st_suspicious_detected := suspicious_detected s;
  st_suspicious_percentage :=
    if 0 <? total_analyzed s
    then (inject_Z (suspicious_detected s) / inject_Z (total_analyzed s)
          * 100)%Q
    else 0%Q;
  st_unique_ips_tracked := Z.of_nat (size (ip_frequency s));
  st_processes_tracked := Z.of_nat (size (process_connection_history s));
  st_ml_training_samples := Z.of_nat (length (connection_features s))
|}.

End ThreatDetector.

(** ** connection_handler.py *)

Module ConnectionHandler.

(** A value of [self.process_stats]. *)
Record ProcessStats := {
  name : string;
  connection_count : Z;
  first_seen : Q;
  last_seen : Q;
  unique_destinations : gset Z;
  suspicious_count : Z
}.

(** The handler.  [websocket_handler] tells whether a broker is attached;
    the broker itself is [WebSocketHandler.t] below. *)
Record t := {
  max_connections : Z;
  retention_minutes : Z;
  threat_detector : option ThreatDetector.t;
  websocket_handler : bool;
  connections : Py.dict string EnrichedEvent;
  connection_queue : list string;        (* deque(maxlen=max_connections) *)
  process_stats : Py.dict Z ProcessStats;
  ip_frequency : Py.dict Z Z;
  connection_rates : gmap Z (list Q);
  total_connections : Z;
  start_time : Q
}.

Definition safe_ports : gset Z :=
  {[ 80; 443; 22; 53; 25; 587; 993; 995; 21; 110; 143; 995; 8080; 8443 ]}.

(** [ConnectionHandler.__init__]; [now] is the clock at construction. *)
Definition init (max_connections retention_minutes : Z)
    (threat_detector : option ThreatDetector.t) (now : Q) : t := {|
  max_connections := max_connections;
  retention_minutes := retention_minutes;
  threat_detector := threat_detector;
  websocket_handler := false;
  connections := [];
  connection_queue := [];
  process_stats := [];
  ip_frequency := [];
  connection_rates := ∅;
  total_connections := 0;
  start_time := now
|}.

(** What one call of [process_connection_event] reads from outside. *)
Record Env := {
  process_lookup : ProcessLookup;
  now_update : Q;
  now_cleanup : Q;
  analysis : ThreatDetector.Env
}.

(** [socket.inet_aton] of a dotted quad, unpacked with ['!I']. *)
Definition inet_aton (a b c d : Z) : Z :=
  ((a * 256 + b) * 256 + c) * 256 + d.

(** [format_ip]. *)
Definition format_ip (ip_int : Z) : string :=
  if (0 <=? ip_int) && (ip_int <? 2 ^ 32) then
    pretty (ip_int / 2 ^ 24) +:+ "." +:+
    pretty ((ip_int / 2 ^ 16) mod 256) +:+ "." +:+
    pretty ((ip_int / 2 ^ 8) mod 256) +:+ "." +:+
    pretty (ip_int mod 256)
  else "Invalid-IP-" +:+ pretty ip_int.

Definition private_ranges : list (Z * Z) :=
  [ (inet_aton 10 0 0 0, inet_aton 10 255 255 255);
    (inet_aton 172 16 0 0, inet_aton 172 31 255 255);
    (inet_aton 192 168 0 0, inet_aton 192 168 255 255);
    (inet_aton 127 0 0 0, inet_aton 127 255 255 255) ].

(** [is_private_ip]. *)
Definition is_private_ip (ip_int : Z) : bool :=
  existsb (λ r, (r.1 <=? ip_int) && (ip_int <=? r.2)) private_ranges.

(** The connection id built at the head of [process_connection_event]. *)
Definition conn_id (event : RawEvent) : string :=
  pretty (timestamp event) +:+ "_" +:+ pretty (pid event) +:+ "_" +:+
  pretty (saddr event) +:+ "_" +:+ pretty (sport event) +:+ "_" +:+
  pretty (daddr event) +:+ "_" +:+ pretty (dport event).

(** [enrich_connection_event]. *)
Definition enrich_connection_event (lookup : ProcessLookup)
    (event : RawEvent) : EnrichedEvent :=
  let p := pid event in
  let with_process (process_name cmdline_full exe_path : string)
        (parent_pid : Z) (username : string) (create_time : Q)
        (status : string) : EnrichedEvent :=
    {| raw := event;
       enrichment := Some {|
         src_ip := format_ip (saddr event);
         dst_ip := format_ip (daddr event);
         protocol_str :=
           if protocol event =? 6 then "TCP"
           else "Protocol-" +:+ pretty (protocol event);
         process_name := process_name;
         cmdline_full := cmdline_full;
         exe_path := exe_path;
         parent_pid := parent_pid;
         username := username;
         create_time := create_time;
         status := status;
         country_code := "Unknown";
         is_private := is_private_ip (daddr event);
         is_safe_port := bool_decide (dport event ∈ safe_ports) |};
       threat_score := None;
       is_suspicious := None |} in
  match lookup with
  | ProcessFound info =>
      with_process (ps_name info) (Py.join " " (ps_cmdline info))
        (ps_exe info) (ps_ppid info) (ps_username info)
        (ps_create_time info) (ps_status info)
  | NoSuchProcess =>
      with_process ("[terminated_pid:" +:+ pretty p +:+ "]")
        (cmdline event) "Unknown" 0 "Unknown" 0%Q "terminated"
  | AccessDenied =>
      with_process (comm event) (cmdline event) "Unknown" 0 "Restricted"
        0%Q "restricted"
  | LookupError =>
      {| raw := event; enrichment := None;
         threat_score := None; is_suspicious := None |}
  end.

(** *** Field updates *)

Definition set_connections (h : t) (c : Py.dict string EnrichedEvent) : t :=
  {| max_connections := max_connections h;
     retention_minutes := retention_minutes h;
     threat_detector := threat_detector h;
     websocket_handler := websocket_handler h;
     connections := c;
     connection_queue := connection_queue h;
     process_stats := process_stats h;
     ip_frequency := ip_frequency h;
     connection_rates := connection_rates h;
     total_connections := total_connections h;
     start_time := start_time h |}.

Definition set_connection_queue (h : t) (q : list string) : t :=
  {| max_connections := max_connections h;
     retention_minutes := retention_minutes h;
     threat_detector := threat_detector h;
     websocket_handler := websocket_handler h;
     connections := connections h;
     connection_queue := q;
     process_stats := process_stats h;
     ip_frequency := ip_frequency h;
     connection_rates := connection_rates h;
     total_connections := total_connections h;
     start_time := start_time h |}.

Definition set_aggregates (h : t) (ps : Py.dict Z ProcessStats)
    (ipf : Py.dict Z Z) (rates : gmap Z (list Q)) : t :=
  {| max_connections := max_connections h;
     retention_minutes := retention_minutes h;
     threat_detector := threat_detector h;
     websocket_handler := websocket_handler h;
     connections := connections h;
     connection_queue := connection_queue h;
     process_stats := ps;
     ip_frequency := ipf;
     connection_rates := rates;
     total_connections := total_connections h;
     start_time := start_time h |}.

Definition set_threat_detector (h : t) (d : option ThreatDetector.t) : t :=
  {| max_connections := max_connections h;
     retention_minutes := retention_minutes h;
     threat_detector := d;
     websocket_handler := websocket_handler h;
     connections := connections h;
     connection_queue := connection_queue h;
     process_stats := process_stats h;
     ip_frequency := ip_frequency h;
     connection_rates := connection_rates h;
     total_connections := total_connections h;
     start_time := start_time h |}.

Definition set_total_connections (h : t) (n : Z) : t :=
  {| max_connections := max_connections h;
     retention_minutes := retention_minutes h;
     threat_detector := threat_detector h;
     websocket_handler := websocket_handler h;
     connections := connections h;
     connection_queue := connection_queue h;
     process_stats := process_stats h;
     ip_frequency := ip_frequency h;
     connection_rates := connection_rates h;
     total_connections := n;
     start_time := start_time h |}.

(** [self.websocket_handler = ...], done by the server at start-up. *)
Definition set_websocket_handler (h : t) (b : bool) : t :=
  {| max_connections := max_connections h;
     retention_minutes := retention_minutes h;
     threat_detector := threat_detector h;
     websocket_handler := b;
     connections := connections h;
     connection_queue := connection_queue h;
     process_stats := process_stats h;
     ip_frequency := ip_frequency h;
     connection_rates := connection_rates h;
     total_connections := total_connections h;
     start_time := start_time h |}.

(** The test of the sweep: the event is older than the retention period. *)
Definition expired (retention_minutes : Z) (current_time : Q)
    (event : EnrichedEvent) : bool :=
  let cutoff_time := (current_time - inject_Z (retention_minutes * 60))%Q in
  let event_time := (inject_Z (timestamp (raw event)) / 1000000000)%Q in
  Py.Qltb event_time cutoff_time.

(** [cleanup_old_connections]: the age sweep. *)
Definition cleanup_old_connections (h : t) (current_time : Q) : t :=
  set_connections h
    (filter (λ ce : string * EnrichedEvent,
               expired (retention_minutes h) current_time ce.2 = false)
       (connections h)).

(** The record created for a pid seen for the first time. *)
Definition first_stats (current_time : Q) (event : EnrichedEvent)
    : ProcessStats :=
  {| name := comm (raw event);
     connection_count := 0;
     first_seen := current_time;
     last_seen := current_time;
     unique_destinations := ∅;
     suspicious_count := 0 |}.

(** The per-pid part of [update_statistics]. *)
Definition update_process_stats (current_time : Q) (event : EnrichedEvent)
    (ps : Py.dict Z ProcessStats) : Py.dict Z ProcessStats :=
  let p := pid (raw event) in
  let stats := default (first_stats current_time event) (Py.get p ps) in
  Py.set p
    {| name := name stats;
       connection_count := connection_count stats + 1;
       first_seen := first_seen stats;
       last_seen := current_time;
       unique_destinations :=
         {[ daddr (raw event) ]} ∪ unique_destinations stats;
       suspicious_count :=
         if default false (is_suspicious event)
         then suspicious_count stats + 1 else suspicious_count stats |}
    ps.

(** [update_statistics]. *)
Definition update_statistics (h : t) (env : Env) (event : EnrichedEvent)
    : t :=
  let current_time := now_update env in
  let p := pid (raw event) in
  let d := daddr (raw event) in
  let ps := update_process_stats current_time event (process_stats h) in
  let ipf :=
    Py.set d (default 0 (Py.get d (ip_frequency h)) + 1) (ip_frequency h) in
  let rates :=
    filter (λ t, Qle_bool (current_time - t) 60 = true)
      (default [] (connection_rates h !! p) ++ [current_time]) in
  let h := set_aggregates h ps ipf (<[p := rates]> (connection_rates h)) in
  if total_connections h mod 100 =? 0
  then cleanup_old_connections h (now_cleanup env)
  else h.

(** The assignments of [threat_score] and [is_suspicious] to the event. *)
Definition scored (e : EnrichedEvent) (score : Z) (suspicious : bool)
    : EnrichedEvent :=
  {| raw := raw e; enrichment := enrichment e;
     threat_score := Some score; is_suspicious := Some suspicious |}.

(** [process_connection_event].  The result is the handler after the
    call and the event dictionary as the call leaves it, which is what
    [broadcast_connection] receives when a broker is attached.
    [self.connections[conn_id]] holds the very dictionary that receives the
    score afterwards, so the stored event shows the score as long as the
    sweep has not deleted the entry. *)
Definition process_connection_event (h : t) (env : Env) (event : RawEvent)
    : t * EnrichedEvent :=
  let id := conn_id event in
  let enriched_event := enrich_connection_event (process_lookup env) event in
  let h := set_connections h (Py.set id enriched_event (connections h)) in
  let h :=
    set_connection_queue h
      (Py.deque_append (max_connections h) id (connection_queue h)) in
  let h := update_statistics h env enriched_event in
  let '(enriched_event, h) :=
    match threat_detector h with
    | Some detector =>
        let '(threat_score, detector) :=
          ThreatDetector.analyze_connection detector (analysis env)
            enriched_event in
        (scored enriched_event threat_score (50 <=? threat_score),
         set_threat_detector h (Some detector))
    | None => (scored enriched_event 0 false, h)
    end in
  let h :=
    if Py.mem id (connections h)
    then set_connections h (Py.set id enriched_event (connections h))
    else h in
  let h := set_total_connections h (total_connections h + 1) in
  (h, enriched_event).

(** The argument of the [broadcast_connection] call made by
    [process_connection_event], if it makes one. *)
Definition broadcast (h : t) (env : Env) (event : RawEvent)
    : option EnrichedEvent :=
  if websocket_handler h
  then Some (process_connection_event h env event).2 else None.

(** A run of ingests, oldest first. *)
Definition ingest (h : t) (step : Env * RawEvent) : t :=
  (process_connection_event h step.1 step.2).1.

Definition ingest_all (h : t) (steps : list (Env * RawEvent)) : t :=
  foldl ingest h steps.

(** [get_recent_connections]. *)
Definition get_recent_connections (h : t) (limit : Z)
    : list EnrichedEvent :=
  let recent_ids := Py.slice_last limit (connection_queue h) in
  let found := omap (λ id, Py.get id (connections h)) recent_ids in
  Py.sorted_desc (λ x, timestamp (raw x)) found.

(** The part of the dictionary returned by [get_statistics] that the
    specification speaks about. *)
Record Statistics := {
  st_total_connections : Z;
  st_active_connections : Z;
  st_active_processes : Z;
  st_suspicious_connections : Z;
  st_top_processes : list (Z * ProcessStats);
  st_top_destinations : list (Z * Z)
}.

(** [get_statistics]. *)
Definition get_statistics (h : t) (current_time : Q) : Statistics :=
  let active :=
    filter (λ p : Z * ProcessStats,
              Py.Qltb (current_time - last_seen p.2) 300 = true)
      (process_stats h) in
  let suspicious :=
    filter (λ c : string * EnrichedEvent,
              default false (is_suspicious c.2) = true)
      (connections h) in
  {| st_total_connections := total_connections h;
     st_active_connections := Z.of_nat (length (connections h));
     st_active_processes := Z.of_nat (length active);
     st_suspicious_connections := Z.of_nat (length suspicious);
     st_top_processes :=
       take 10 (Py.sorted_desc (λ x : Z * ProcessStats,
                                  connection_count x.2) (process_stats h));
     st_top_destinations :=
       take 10 (Py.sorted_desc (λ x : Z * Z, x.2) (ip_frequency h)) |}.

(** The dictionary returned by [get_process_details]. *)
Record ProcessDetails := {
  pd_process_info : ProcessStats;
  pd_connection_rate_per_minute : Z;
  pd_threat_analysis : option ThreatDetector.Analysis;
  pd_recent_connections : list EnrichedEvent;
  pd_total_connections : Z
}.

(** [get_process_details]; [current_time] is the clock the handler reads,
    [analysis_time] the one the analyzer reads for its report. *)
Definition get_process_details (h : t) (current_time analysis_time : Q)
    (p : Z) : option ProcessDetails :=
  match Py.get p (process_stats h) with
  | None => None
  | Some stats =>
      let process_connections :=
        filter (λ conn : EnrichedEvent, pid (raw conn) = p)
          (Py.values (connections h)) in
      let process_connections :=
        Py.sorted_desc (λ x, timestamp (raw x)) process_connections in
      let recent_connections :=
        filter (λ t, Qle_bool (current_time - t) 60 = true)
          (default [] (connection_rates h !! p)) in
      Some {|
        pd_process_info := stats;
        pd_connection_rate_per_minute :=
          Z.of_nat (length recent_connections);
        pd_threat_analysis :=
          match threat_detector h with
          | Some detector =>
              Some (ThreatDetector.get_process_threat_analysis detector
                      analysis_time p)
          | None => None
          end;
        pd_recent_connections := take 50 process_connections;
        pd_total_connections := Z.of_nat (length process_connections)
      |}
  end.

End ConnectionHandler.

(** ** websocket_handler.py *)

Module WebSocketHandler.

(** A value produced by [json.loads]. *)
#[local] Unset Elimination Schemes.
Inductive json :=
| JNull
| JBool (b : bool)
| JInt (n : Z)
| JFloat (x : Q)
| JString (s : string)
| JArray (l : list json)
| JObject (o : list (string * json)).
#[local] Set Elimination Schemes.

(** Python's truth value of a JSON value: [not v] is its negation. *)
Definition truthy (v : json) : bool :=
  match v with
  | JNull => false
  | JBool b => b
  | JInt n => negb (n =? 0)
  | JFloat x => negb (Qeq_bool x 0)
  | JString s => negb (String.eqb s "")
  | JArray l => match l with [] => false | _ => true end
  | JObject o => match o with [] => false | _ => true end
  end.

(** A server-side socket of one client. *)
Definition WebSocket := nat.

Record Metadata := {
  connected_at : Q;
  last_ping : Q;
  subscriptions : list string;
  last_message_time : Q
}.

Record t := {
  clients : Py.dict string WebSocket;
  client_metadata : gmap string Metadata;
  client_message_counts : gmap string (list Q);
  messages_sent : Z
}.

Definition rate_limit : Z := 100.

(** [WebSocketHandler.__init__]. *)
Definition init : t := {|
  clients := [];
  client_metadata := ∅;
  client_message_counts := ∅;
  messages_sent := 0
|}.

(** The registration of a client in [handle_client], at the clock reading
    [current_time] taken when the connection arrives. *)
Definition register (s : t) (client_id : string) (websocket : WebSocket)
    (current_time : Q) : t := {|
  clients := Py.set client_id websocket (clients s);
  client_metadata :=
    <[client_id := {| connected_at := current_time;
                      last_ping := current_time;
                      subscriptions := ["all"];
                      last_message_time := current_time |}]>
      (client_metadata s);
  client_message_counts := <[client_id := []]> (client_message_counts s);
  messages_sent := messages_sent s
|}.

(** The text of an [error] frame.  The kill handler formats the value of
    its [pid] variable into the text; the value is kept as it is. *)
Inductive ErrorText :=
| Text (s : string)
| ProcessNotFound (pid : json)
| KillAccessDenied (pid : json)
| KillUnexpected (pid : json).

(** Outbound messages of the functions embedded here. *)
Inductive Message :=
| MsgError (text : ErrorText)
| MsgConnection (event : EnrichedEvent)
| MsgProcessKilled (pid : Z).

(** A frame that went out on a socket: the client, its socket, the clock
    reading of its admission, the message. *)
Record Frame := {
  f_client : string;
  f_socket : WebSocket;
  f_time : Q;
  f_message : Message
}.

(** What one call of [send_message] reads from outside: the clock in
    [check_rate_limit], whether [json.dumps] and [send_text] return
    ([false]: one of them raised), the clock after the send. *)
Record SendEnv := {
  now_check : Q;
  send_ok : bool;
  now_sent : Q
}.

(** [check_rate_limit]. *)
Definition check_rate_limit (s : t) (current_time : Q) (client_id : string)
    : bool * t :=
  let window :=
    filter (λ timestamp, Py.Qltb (current_time - timestamp) 1 = true)
      (default [] (client_message_counts s !! client_id)) in
  if Z.of_nat (length window) <? rate_limit then
    (true,
     {| clients := clients s;
        client_metadata := client_metadata s;
        client_message_counts :=
          <[client_id := window ++ [current_time]]>
            (client_message_counts s);
        messages_sent := messages_sent s |})
  else
    (false,
     {| clients := clients s;
        client_metadata := client_metadata s;
        client_message_counts :=
          <[client_id := window]> (client_message_counts s);
        messages_sent := messages_sent s |}).

(** [cleanup_client]. *)
Definition cleanup_client (s : t) (client_id : string) : t := {|
  clients := Py.del client_id (clients s);
  client_metadata := delete client_id (client_metadata s);
  client_message_counts := delete client_id (client_message_counts s);
  messages_sent := messages_sent s
|}.

(** The bookkeeping of [send_message] after a send that returned. *)
Definition sent (s : t) (now : Q) (client_id : string) : t := {|
  clients := clients s;
  client_metadata :=
    match client_metadata s !! client_id with
    | Some m =>
        <[client_id := {| connected_at := connected_at m;
                          last_ping := last_ping m;
                          subscriptions := subscriptions m;
                          last_message_time := now |}]> (client_metadata s)
    | None => client_metadata s
    end;
  client_message_counts := client_message_counts s;
  messages_sent := messages_sent s + 1
|}.

(** [send_message]: the handler after the call and the frames that went
    out (none or one). *)
Definition send_message (s : t) (env : SendEnv) (client_id : string)
    (websocket : WebSocket) (message : Message) : t * list Frame :=
  let '(allowed, s) := check_rate_limit s (now_check env) client_id in
  if negb allowed then (s, [])
  else if send_ok env then
    (sent s (now_sent env) client_id,
     [ {| f_client := client_id; f_socket := websocket;
          f_time := now_check env; f_message := message |} ])
  else (cleanup_client s client_id, []).

(** [send_error]. *)
Definition send_error (s : t) (env : SendEnv) (client_id : string)
    (websocket : WebSocket) (error_message : ErrorText) : t * list Frame :=
  send_message s env client_id websocket (MsgError error_message).

(** [broadcast_connection]: one [send_message] per client of the snapshot
    [list(self.clients.items())]; [envs] gives the environment of the send
    to each client. *)
Definition broadcast_connection (s : t) (envs : string → SendEnv)
    (connection_event : EnrichedEvent) : t * list Frame :=
  foldl (λ (acc : t * list Frame) (c : string * WebSocket),
           let '(s', out) :=
             send_message acc.1 (envs c.1) c.1 c.2
               (MsgConnection connection_event) in
           (s', acc.2 ++ out))
        (s, []) (clients s).

(** A run of [send_message] calls, oldest first, with the frames sent. *)
Record Send := {
  to_client : string;
  to_socket : WebSocket;
  send_env : SendEnv;
  payload : Message
}.

Definition send_step (acc : t * list Frame) (c : Send) : t * list Frame :=
  let '(s', out) :=
    send_message acc.1 (send_env c) (to_client c) (to_socket c) (payload c) in
  (s', acc.2 ++ out).

Definition send_all (s : t) (calls : list Send) : t * list Frame :=
  foldl send_step (s, []) calls.


(** *** The kill-process action *)

Inductive Exn :=
| ExnNoSuchProcess
| ExnAccessDenied
| ExnTimeoutExpired
| ExnOther.

(** The calls into [psutil] the kill handler makes. *)
Inductive OsCall :=
| CallProcess (pid : Z)                 (* psutil.Process(pid) *)
| CallChildren (pid : Z)                (* proc.children(recursive=True) *)
| CallTerminate (pid : Z)               (* .terminate() *)
| CallWaitProcs (pids : list Z)         (* psutil.wait_procs(.., timeout=3) *)
| CallKill (pid : Z)                    (* .kill() *)
| CallWait (pid : Z).                   (* proc.wait(timeout=3) *)

(** What the operating system answers: [None] is a call that returns,
    [inl e] a call that raises [e]. *)
Record Os := {
  os_process : Z → option Exn;
  os_children : Z → Exn + list Z;
  os_terminate : Z → option Exn;
  os_wait_procs : list Z → list Z;       (* the processes still alive *)
  os_kill : Z → option Exn;
  os_wait : Z → option Exn
}.

(** [for p in ps: try: call(p) except NoSuchProcess: continue]. *)
Fixpoint each_ignoring_gone (call : Z → OsCall) (answer : Z → option Exn)
    (ps : list Z) : list OsCall * option Exn :=
  match ps with
  | [] => ([], None)
  | p :: ps' =>
      match answer p with
      | None | Some ExnNoSuchProcess =>
          let '(calls, r) := each_ignoring_gone call answer ps' in
          (call p :: calls, r)
      | Some e => ([call p], Some e)
      end
  end.

(** The body of the [try] of [handle_kill_process] after [int(pid)]: the
    calls made, and the exception that ended it, if any. *)
Definition terminate_tree (os : Os) (pid : Z) : list OsCall * option Exn :=
  match os_process os pid with
  | Some e => ([CallProcess pid], Some e)
  | None =>
      match os_children os pid with
      | inl e => ([CallProcess pid; CallChildren pid], Some e)
      | inr children =>
          let '(c1, r1) :=
            each_ignoring_gone CallTerminate (os_terminate os) children in
          let pre := [CallProcess pid; CallChildren pid] ++ c1 in
          match r1 with
          | Some e => (pre, Some e)
          | None =>
              let alive := os_wait_procs os children in
              let '(c2, r2) :=
                each_ignoring_gone CallKill (os_kill os) alive in
              let pre := pre ++ [CallWaitProcs children] ++ c2 in
              match r2 with
              | Some e => (pre, Some e)
              | None =>
                  match os_terminate os pid with
                  | Some e => (pre ++ [CallTerminate pid], Some e)
                  | None =>
                      let pre := pre ++ [CallTerminate pid; CallWait pid] in
                      match os_wait os pid with
                      | Some ExnTimeoutExpired =>
                          (pre ++ [CallKill pid], os_kill os pid)
                      | r => (pre, r)
                      end
                  end
              end
          end
      end
  end.

(** What one call of [handle_kill_process] reads from outside. *)
Record KillEnv := {
  int_of_str : string → option Z;        (* [int(s)]; [None]: ValueError *)
  os : Os;
  reply_env : SendEnv
}.

(** [int(pid)] on a JSON value; [None] when it raises. *)
Definition int_of_json (env : KillEnv) (v : json) : option Z :=
  match v with
  | JInt n => Some n
  | JBool b => Some (Z.b2z b)
  | JFloat x => Some (Py.int x)
  | JString s => int_of_str env s
  | JNull | JArray _ | JObject _ => None
  end.

(** The result of the handler: the broker after the call, the frames
    sent, the calls into the operating system, and whether an exception
    left the handler. *)
Record KillResult := {
  k_state : t;
  k_frames : list Frame;
  k_os_calls : list OsCall;
  k_raised : bool
}.

Definition replied (r : t * list Frame) (calls : list OsCall)
    : KillResult :=
  {| k_state := r.1; k_frames := r.2; k_os_calls := calls;
     k_raised := false |}.

(** [handle_kill_process]; [data] is the decoded inbound object. *)
Definition handle_kill_process (s : t) (env : KillEnv) (client_id : string)
    (websocket : WebSocket) (data : list (string * json)) : KillResult :=
  match default (JObject []) (Py.get "data" data) with
  | JObject inner =>
      let pid := default JNull (Py.get "pid" inner) in
      if negb (truthy pid) then
        replied (send_error s (reply_env env) client_id websocket
                   (Text "PID not provided for kill_process")) []
      else
        match int_of_json env pid with
        | None =>
            replied (send_error s (reply_env env) client_id websocket
                       (KillUnexpected pid)) []
        | Some n =>
            let '(calls, r) := terminate_tree (os env) n in
            let reply :=
              match r with
              | None => MsgProcessKilled n
              | Some ExnNoSuchProcess => MsgError (ProcessNotFound (JInt n))
              | Some ExnAccessDenied => MsgError (KillAccessDenied (JInt n))
              | Some _ => MsgError (KillUnexpected (JInt n))
              end in
            replied (send_message s (reply_env env) client_id websocket
                       reply) calls
        end
  | _ =>
      (* [.get] on a value that is no dictionary: AttributeError *)
      {| k_state := s; k_frames := []; k_os_calls := []; k_raised := true |}
  end.

(** *** Filters of [get_connections] *)

(** [filters.get(key)] taken for its truth value: the value when it is
    truthy. *)
Definition active (key : string) (filters : list (string * json))
    : option json :=
  match Py.get key filters with
  | Some v => if truthy v then Some v else None
  | None => None
  end.

(** [score >= min_score] for an [int] score; [None] when Python raises
    [TypeError]. *)
Definition score_at_least (score : Z) (min_score : json) : option bool :=
  match min_score with
  | JInt n => Some (n <=? score)
  | JBool b => Some (Z.b2z b <=? score)
  | JFloat x => Some (Qle_bool x (inject_Z score))
  | JNull | JString _ | JArray _ | JObject _ => None
  end.

(** A list comprehension [[c for c in l if test(c)]] whose test may raise:
    the test runs on the elements in order, and an empty list runs none. *)
Fixpoint comprehension {A} (test : A → option bool) (l : list A)
    : option (list A) :=
  match l with
  | [] => Some []
  | c :: l' =>
      match test c with
      | None => None
      | Some keep =>
          match comprehension test l' with
          | None => None
          | Some r => Some (if keep then c :: r else r)
          end
      end
  end.

(** [apply_filters]; [None] when it raises. *)
Definition apply_filters (connections : list EnrichedEvent)
    (filters : list (string * json)) : option (list EnrichedEvent) :=
  let filtered := Some connections in
  let filtered :=
    match active "suspicious_only" filters with
    | Some _ =>
        filtered ≫= comprehension
          (λ c, Some (default false (is_suspicious c)))
    | None => filtered
    end in
  let filtered :=
    match active "process_name" filters with
    | Some (JString process_name) =>
        let process_name := Py.lower process_name in
        filtered ≫= comprehension
          (λ c, Some (Py.contains process_name
                        (Py.lower (get_process_name c))))
    | Some _ => None               (* [.lower()] on a value that is no string *)
    | None => filtered
    end in
  let filtered :=
    match active "min_threat_score" filters with
    | Some min_score =>
        filtered ≫= comprehension
          (λ c, score_at_least (default 0 (threat_score c)) min_score)
    | None => filtered
    end in
  match active "destination_ip" filters with
  | Some dst =>
      filtered ≫= comprehension
        (λ c, match dst with
              | JString dst_ip => Some (Py.contains dst_ip (get_dst_ip c))
              | _ => None          (* [x in str] for an [x] that is no string *)
              end)
  | None => filtered
  end.

(** [-limit] as a slice bound: the integer the slice uses, [None] when
    Python raises [TypeError]. *)
Definition slice_limit (limit : json) : option Z :=
  match limit with
  | JInt n => Some n
  | JBool b => Some (Z.b2z b)
  | JNull | JFloat _ | JString _ | JArray _ | JObject _ => None
  end.

(** What [handle_get_connections] hands to [send_message]. *)
Inductive ConnectionsReply :=
| ReplyConnections (connections : list EnrichedEvent) (total : Z)
| ReplyError (text : ErrorText).

(** [handle_get_connections], up to the send: the reply it builds from
    the decoded inbound object and the store. *)
Definition handle_get_connections (store : ConnectionHandler.t)
    (data : list (string * json)) : ConnectionsReply :=
  let failed := ReplyError (Text "Error getting connections") in
  let limit := default (JInt 1000) (Py.get "limit" data) in
  let filters := default (JObject []) (Py.get "filters" data) in
  match slice_limit limit with
  | None => failed
  | Some limit =>
      let connections :=
        ConnectionHandler.get_recent_connections store limit in
      let connections :=
        if truthy filters then
          match filters with
          | JObject filters => apply_filters connections filters
          | _ => None              (* [.get] on a value that is no dictionary *)
          end
        else Some connections in
      match connections with
      | Some connections =>
          ReplyConnections connections (Z.of_nat (length connections))
      | None => failed
      end
  end.

End WebSocketHandler.

(** ** Vocabulary of the statements *)




(** The timestamps less than one second old at [now]. *)
Definition fresh (now : Q) (ts : list Q) : list Q :=
  filter (λ t, Py.Qltb (now - t) 1 = true) ts.

(** [self.client_message_counts[client]], empty when the key is absent. *)
Definition window_of (s : WebSocketHandler.t) (client : string) : list Q :=
  default [] (WebSocketHandler.client_message_counts s !! client).


(** The number of connections of [l] that go to [d]. *)
Definition count_to (d : string) (l : list ThreatDetector.Conn) : nat :=
  length (filter (λ c, ThreatDetector.c_dst_ip c = d) l).

(** The events of a listing that carry the connection id [id]. *)
Definition listed (id : string) (listing : list EnrichedEvent)
    : list EnrichedEvent :=
  filter (λ e, ConnectionHandler.conn_id (raw e) = id) listing.

(** The occurrences of the connection id [id] in a list of queued ids. *)
Definition queued (id : string) (ids : list string) : list string :=
  filter (λ k, k = id) ids.

(** Every event of the store is filed under the connection id of its own
    raw fields. *)
Definition keyed (connections : Py.dict string EnrichedEvent) : Prop :=
  Forall (λ ce, ConnectionHandler.conn_id (raw ce.2) = ce.1) connections.

(** An event as the store has to hold it: scored in [[0,100]] and flagged
    exactly from 50 on. *)
Definition scored_event (e : EnrichedEvent) : Prop :=
  ∃ score, threat_score e = Some score ∧ 0 ≤ score ≤ 100 ∧
           is_suspicious e = Some (50 <=? score).

(** The bounds of the per-pid aggregates. *)
Definition stats_bounded (stats : ConnectionHandler.ProcessStats) : Prop :=
  Z.of_nat (size (ConnectionHandler.unique_destinations stats))
    ≤ ConnectionHandler.connection_count stats ∧
  ConnectionHandler.suspicious_count stats
    ≤ ConnectionHandler.connection_count stats.

(** The order of [top_processes] as the specification words it: larger
    count first, then the later [last_seen], then the smaller pid. *)
Definition claimed_process_order
    (x y : Z * ConnectionHandler.ProcessStats) : Prop :=
  let count := ConnectionHandler.connection_count in
  let seen := ConnectionHandler.last_seen in
  count y.2 < count x.2 ∨
  (count x.2 = count y.2 ∧
   ((seen y.2 < seen x.2)%Q ∨ ((seen x.2 == seen y.2)%Q ∧ x.1 < y.1))).

(** The same for [top_destinations], whose entries have no [last_seen]:
    larger count first, then the smaller address. *)
Definition claimed_destination_order (x y : Z * Z) : Prop :=
  y.2 < x.2 ∨ (x.2 = y.2 ∧ x.1 < y.1).


(** ** Concrete runs

    The inputs of the examples below: a handler fed a few events, a client
    sent a burst of frames, a kill request without a usable pid. *)

Module Scenario.

(** An analysis on a Wednesday at noon whose sample is still in warm-up. *)
Definition weekday_noon (now : Q) : ThreatDetector.Env := {|
  ThreatDetector.now_analyze := now;
  ThreatDetector.now_frequency := now;
  ThreatDetector.now_patterns := now;
  ThreatDetector.timing_hour := 12;
  ThreatDetector.timing_weekday := 2;
  ThreatDetector.feature_hour := 12;
  ThreatDetector.feature_weekday := 2;
  ThreatDetector.mean_z_score := 0
|}.

(** An ingest at clock [now] with the given answer of the process table. *)
Definition at_time (now : Q) (lookup : ProcessLookup)
    : ConnectionHandler.Env := {|
  ConnectionHandler.process_lookup := lookup;
  ConnectionHandler.now_update := now;
  ConnectionHandler.now_cleanup := now;
  ConnectionHandler.analysis := weekday_noon now
|}.

(** A TCP connection from 10.0.0.1:40000. *)
Definition connect (ts pid daddr dport : Z) : RawEvent := {|
  timestamp := ts;
  pid := pid;
  comm := "curl";
  cmdline := "curl example";
  saddr := ConnectionHandler.inet_aton 10 0 0 1;
  daddr := daddr;
  sport := 40000;
  dport := dport;
  protocol := 6
|}.

Definition host_a : Z := ConnectionHandler.inet_aton 203 0 113 5.
Definition host_b : Z := ConnectionHandler.inet_aton 198 51 100 7.

(** A shell started from /tmp. *)
Definition bash_in_tmp : ProcessLookup :=
  ProcessFound {|
    ps_name := "bash";
    ps_cmdline := ["bash"; "-i"];
    ps_exe := "/tmp/x";
    ps_ppid := 1;
    ps_username := "root";
    ps_create_time := 0;
    ps_status := "running"
  |}.

(** A handler with the default bounds and an analyzer, created at clock 0. *)
Definition fresh_handler : ConnectionHandler.t :=
  ConnectionHandler.init 10000 5 (Some ThreatDetector.init) 0.

(** A handler that may keep three connections. *)
Definition small_handler : ConnectionHandler.t :=
  ConnectionHandler.init 3 5 (Some ThreatDetector.init) 0.

(** The shell connects to port 4444 of a public host. *)
Definition shell_ingest : ConnectionHandler.Env * RawEvent :=
  (at_time 1 bash_in_tmp, connect 1000000000 7 host_a 4444).

(** Four connections at seconds 1 to 4, each ingested when it happens. *)
Definition four_ingests : list (ConnectionHandler.Env * RawEvent) :=
  [ (at_time 1 NoSuchProcess, connect 1000000000 7 host_a 443);
    (at_time 2 NoSuchProcess, connect 2000000000 7 host_a 443);
    (at_time 3 NoSuchProcess, connect 3000000000 7 host_a 443);
    (at_time 4 NoSuchProcess, connect 4000000000 7 host_a 443) ].

(** One raw event ingested twice. *)
Definition repeated : RawEvent := connect 1000000000 7 host_a 443.
Definition twice : list (ConnectionHandler.Env * RawEvent) :=
  [ (at_time 1 NoSuchProcess, repeated);
    (at_time 1 NoSuchProcess, repeated) ].

(** The same raw event again after another connection. *)
Definition separated : list (ConnectionHandler.Env * RawEvent) :=
  [ (at_time 1 NoSuchProcess, repeated);
    (at_time 2 NoSuchProcess, connect 2000000000 7 host_b 443);
    (at_time 3 NoSuchProcess, repeated) ].

(** Pid 9 connects to [host_a] at second 1, pid 5 to [host_b] at second 2. *)
Definition two_processes : list (ConnectionHandler.Env * RawEvent) :=
  [ (at_time 1 NoSuchProcess, connect 1000000000 9 host_a 443);
    (at_time 2 NoSuchProcess, connect 2000000000 5 host_b 443) ].

(** A connection to the git port. *)
Definition git_fetch : RawEvent := connect 1000000000 7 host_a 9418.

(** 150 frames for one client within the same instant. *)
Definition burst : list WebSocketHandler.Send :=
  replicate 150
    {| WebSocketHandler.to_client := "client-1";
       WebSocketHandler.to_socket := 1%nat;
       WebSocketHandler.send_env :=
         {| WebSocketHandler.now_check := 10;
            WebSocketHandler.send_ok := true;
            WebSocketHandler.now_sent := 10 |};
       WebSocketHandler.payload :=
         WebSocketHandler.MsgError (WebSocketHandler.Text "tick") |}.

(** A broker with one client, registered at second 9. *)
Definition registered : WebSocketHandler.t :=
  WebSocketHandler.register WebSocketHandler.init "client-1" 1%nat 9.





Definition quiet_os : WebSocketHandler.Os := {|
  WebSocketHandler.os_process := λ _, None;
  WebSocketHandler.os_children := λ _, inr [];
  WebSocketHandler.os_terminate := λ _, None;
  WebSocketHandler.os_wait_procs := λ _, [];
  WebSocketHandler.os_kill := λ _, None;
  WebSocketHandler.os_wait := λ _, None
|}.

Definition kill_env : WebSocketHandler.KillEnv := {|
  WebSocketHandler.int_of_str := λ _, None;
  WebSocketHandler.os := quiet_os;
  WebSocketHandler.reply_env :=
    {| WebSocketHandler.now_check := 10;
       WebSocketHandler.send_ok := true;
       WebSocketHandler.now_sent := 10 |}
|}.

(** An analyzer that has seen twelve connections of pid 7 to one host. *)
Definition busy_detector : ThreatDetector.t :=
  foldl (λ s _, ThreatDetector.track s (weekday_noon 1)
                  (ConnectionHandler.enrich_connection_event NoSuchProcess
                     (connect 1000000000 7 host_a 443)))
        ThreatDetector.init (replicate 12 ()).

End Scenario.

(** ** Vocabulary of the further properties *)

(** What every analyzer state reached from [ThreatDetector.init] satisfies:
    the history of a pid holds between 1 and 100 connections and its pid
    has had its first-connection check and no other pid has, the counters
    are ordered, the sample of the anomaly detector is bounded, and every
    counted destination was counted at least once. *)
Record detector_ok (s : ThreatDetector.t) : Prop := {
  ok_history :
    ∀ p h, ThreatDetector.process_connection_history s !! p = Some h →
           (1 ≤ length h ≤ 100)%nat ∧
           p ∈ ThreatDetector.process_first_connection s;
  ok_counters :
    0 ≤ ThreatDetector.suspicious_detected s ≤ ThreatDetector.total_analyzed s;
  ok_features :
    Z.min (ThreatDetector.total_analyzed s) 100
      ≤ Z.of_nat (length (ThreatDetector.connection_features s))
      ≤ Z.min (ThreatDetector.total_analyzed s) 10000;
  ok_frequency :
    ∀ d n, ThreatDetector.ip_frequency s !! d = Some n →
           1 ≤ n ≤ ThreatDetector.total_analyzed s;
  ok_first :
    ∀ p, p ∈ ThreatDetector.process_first_connection s →
         is_Some (ThreatDetector.process_connection_history s !! p)
}.

(** The pids of the events of a run of analyses. *)
Definition analyzed_pids
    (steps : list (ThreatDetector.Env * EnrichedEvent)) : list Z :=
  (λ step, pid (raw step.2)) <$> steps.

(** The risk band of an integer risk score. *)
Definition risk_band (score : Z) : ThreatDetector.RiskLevel :=
  if 75 <=? score then ThreatDetector.Critical
  else if 50 <=? score then ThreatDetector.High
  else if 25 <=? score then ThreatDetector.Medium
  else ThreatDetector.Low.


(** The filters of a [get_connections] request are well typed: an active
    [process_name] or [destination_ip] is a string and an active
    [min_threat_score] is a number. *)
Definition filters_well_typed
    (filters : list (string * WebSocketHandler.json)) : bool :=
  match WebSocketHandler.active "process_name" filters with
  | Some (WebSocketHandler.JString _) | None => true
  | Some _ => false
  end &&
  match WebSocketHandler.active "min_threat_score" filters with
  | Some (WebSocketHandler.JInt _) | Some (WebSocketHandler.JBool _)
  | Some (WebSocketHandler.JFloat _) | None => true
  | Some _ => false
  end &&
  match WebSocketHandler.active "destination_ip" filters with
  | Some (WebSocketHandler.JString _) | None => true
  | Some _ => false
  end.

(** The event passes every active filter: the filters combined with AND. *)
Definition passes_filters (filters : list (string * WebSocketHandler.json))
    (c : EnrichedEvent) : bool :=
  match WebSocketHandler.active "suspicious_only" filters with
  | Some _ => default false (is_suspicious c)
  | None => true
  end &&
  match WebSocketHandler.active "process_name" filters with
  | Some (WebSocketHandler.JString name) =>
      Py.contains (Py.lower name) (Py.lower (get_process_name c))
  | _ => true
  end &&
  match WebSocketHandler.active "min_threat_score" filters with
  | Some min_score =>
      default false
        (WebSocketHandler.score_at_least (default 0 (threat_score c))
           min_score)
  | None => true
  end &&
  match WebSocketHandler.active "destination_ip" filters with
  | Some (WebSocketHandler.JString dst) => Py.contains dst (get_dst_ip c)
  | _ => true
  end.

(** What a broadcast does for one client of the snapshot, judged on the
    broker before the broadcast: the frame goes out, or the send raises. *)
Definition delivers (s : WebSocketHandler.t)
    (envs : string → WebSocketHandler.SendEnv) (client : string) : bool :=
  (WebSocketHandler.check_rate_limit s
     (WebSocketHandler.now_check (envs client)) client).1 &&
  WebSocketHandler.send_ok (envs client).

Definition send_raises (s : WebSocketHandler.t)
    (envs : string → WebSocketHandler.SendEnv) (client : string) : bool :=
  (WebSocketHandler.check_rate_limit s
     (WebSocketHandler.now_check (envs client)) client).1 &&
  negb (WebSocketHandler.send_ok (envs client)).

(** Inputs of the examples of the further properties. *)
Module Further.

(** The filters "suspicious, scored at least 50". *)
Definition suspicious_filters : list (string * WebSocketHandler.json) :=
  [ ("suspicious_only", WebSocketHandler.JBool true);
    ("min_threat_score", WebSocketHandler.JInt 50) ].

(** A broker with two registered clients that have not been sent
    anything. *)
Definition two_clients : WebSocketHandler.t := {|
  WebSocketHandler.clients := [ ("client-1", 1%nat); ("client-2", 2%nat) ];
  WebSocketHandler.client_metadata := ∅;
  WebSocketHandler.client_message_counts := ∅;
  WebSocketHandler.messages_sent := 0
|}.

(** The send to the first client raises, the send to the others returns. *)
Definition first_raises (client : string) : WebSocketHandler.SendEnv := {|
  WebSocketHandler.now_check := 10;
  WebSocketHandler.send_ok := negb (String.eqb client "client-1");
  WebSocketHandler.now_sent := 10
|}.

(** A process with two children, one of which survives the first signal. *)
Definition family_os : WebSocketHandler.Os := {|
  WebSocketHandler.os_process := λ _, None;
  WebSocketHandler.os_children :=
    λ p, if p =? 4242 then inr [4243; 4244] else inr [];
  WebSocketHandler.os_terminate := λ _, None;
  WebSocketHandler.os_wait_procs := λ _, [4244];
  WebSocketHandler.os_kill := λ _, None;
  WebSocketHandler.os_wait := λ _, None
|}.

Definition family_env : WebSocketHandler.KillEnv := {|
  WebSocketHandler.int_of_str := λ _, None;
  WebSocketHandler.os := family_os;
  WebSocketHandler.reply_env :=
    {| WebSocketHandler.now_check := 10;
       WebSocketHandler.send_ok := true;
       WebSocketHandler.now_sent := 10 |}
|}.

Definition kill_4242 : list (string * WebSocketHandler.json) :=
  [ ("type", WebSocketHandler.JString "kill_process");
    ("data", WebSocketHandler.JObject
               [ ("pid", WebSocketHandler.JInt 4242) ]) ].

End Further.

(** The frame a broadcast of [e] sends to the client [c] of the snapshot. *)
Definition broadcast_frame (envs : string → WebSocketHandler.SendEnv)
    (e : EnrichedEvent) (c : string * WebSocketHandler.WebSocket)
    : WebSocketHandler.Frame :=
  {| WebSocketHandler.f_client := c.1;
     WebSocketHandler.f_socket := c.2;
     WebSocketHandler.f_time := WebSocketHandler.now_check (envs c.1);
     WebSocketHandler.f_message := WebSocketHandler.MsgConnection e |}.
Ltac split_ifs :=
  repeat match goal with
         | |- context [if ?b then _ else _] => destruct b
         | |- context [match ?o with Some _ => _ | None => _ end] => destruct o
         end.

Section PyFacts.

Lemma Qltb_lt (a b : Q) : Py.Qltb a b = true ↔ (a < b)%Q.
Proof.
  unfold Py.Qltb. rewrite negb_true_iff, <- not_true_iff_false, Qle_bool_iff.
  split; [apply Qnot_le_lt | apply Qlt_not_le].
Qed.

Lemma Qltb_ge (a b : Q) : Py.Qltb a b = false ↔ (b <= a)%Q.
Proof.
  unfold Py.Qltb. rewrite negb_false_iff. apply Qle_bool_iff.
Qed.

Lemma max_lower (a b : Q) : (a <= Py.max a b)%Q.
Proof.
  unfold Py.max. destruct (Py.Qltb a b) eqn:E; [|lra].
  apply Qltb_lt in E. lra.
Qed.

Lemma int_bounds (x : Q) (n : Z) :
  (0 <= x)%Q → (x <= inject_Z n)%Q → 0 ≤ Py.int x ≤ n.
Proof.
  destruct x as [a d]. unfold Qle, Py.int. simpl. intros H0 Hn.
  assert (0 ≤ a) by lia.
  rewrite Z.quot_div_nonneg by lia. split.
  - apply Z.div_pos; lia.
  - apply Z.div_le_upper_bound; lia.
Qed.

Lemma int_zero (x : Q) : (x == 0)%Q → Py.int x = 0.
Proof.
  destruct x as [a d]. unfold Qeq, Py.int. simpl. intros H.
  replace a with 0 by lia. reflexivity.
Qed.

(** Clamping a non-negative score below at 0 does not change its integer
    value. *)
Lemma int_min_max0 (x : Q) :
  (0 <= x)%Q → Py.int (Py.min 100 (Py.max 0 x)) = Py.int (Py.min 100 x).
Proof.
  intros Hx. unfold Py.max. destruct (Py.Qltb 0 x) eqn:E; [reflexivity|].
  apply Qltb_ge in E. assert (x == 0)%Q as Hz by lra.
  unfold Py.min.
  destruct (Py.Qltb 0 100) eqn:E1; [|apply Qltb_ge in E1; lra].
  destruct (Py.Qltb x 100) eqn:E2; [|apply Qltb_ge in E2; lra].
  rewrite (int_zero x Hz). reflexivity.
Qed.

Lemma min_max0_range (x : Q) :
  (0 <= Py.min 100 (Py.max 0 x))%Q ∧ (Py.min 100 (Py.max 0 x) <= 100)%Q.
Proof.
  unfold Py.min, Py.max.
  destruct (Py.Qltb 0 x) eqn:E1.
  - apply Qltb_lt in E1.
    destruct (Py.Qltb x 100) eqn:E2; [apply Qltb_lt in E2|]; lra.
  - destruct (Py.Qltb 0 100) eqn:E2; lra.
Qed.

End PyFacts.

Lemma filter_none {A} (P : A → Prop) `{∀ x, Decision (P x)} (l : list A) :
  Forall (λ x, ¬ P x) l → filter P l = [].
Proof.
  induction 1 as [|x l Hx _ IH]; [done|].
  by rewrite filter_cons, decide_False.
Qed.

Section DictFacts.
Context {K V : Type} `{EqDecision K}.
Implicit Types (d : Py.dict K V) (k : K) (v : V).

Lemma get_elem_of k v d : Py.get k d = Some v → (k, v) ∈ d.
Proof.
  induction d as [|[k' v'] d IH]; cbn; [done|].
  destruct (decide (k = k')) as [->|Hne].
  - intros [= ->]. left.
  - intros H0. right. auto.
Qed.

Lemma get_None_keys k d : Py.get k d = None ↔ k ∉ Py.keys d.
Proof.
  unfold Py.keys. induction d as [|[k' v'] d IH]; cbn.
  - split; [intros _; apply not_elem_of_nil|done].
  - rewrite not_elem_of_cons. destruct (decide (k = k')) as [->|Hne].
    + split; [done|]. intros [? _]. done.
    + rewrite IH. tauto.
Qed.

Lemma get_set_eq k v d : Py.get k (Py.set k v d) = Some v.
Proof.
  induction d as [|[k' v'] d IH]; cbn.
  - by rewrite decide_True.
  - destruct (decide (k = k')) as [->|Hne]; cbn.
    + by rewrite decide_True.
    + by rewrite decide_False.
Qed.

Lemma elem_of_set k v d kv :
  kv ∈ Py.set k v d → kv = (k, v) ∨ kv ∈ d.
Proof.
  induction d as [|[k0 v0] d IH]; cbn.
  - intros Hin. apply list_elem_of_singleton in Hin. by left.
  - destruct (decide (k = k0)) as [->|Hne]; intros Hin;
      apply elem_of_cons in Hin as [->|Hin].
    + by left.
    + right. by right.
    + right. left.
    + destruct (IH Hin); [by left|]. right. by right.
Qed.

Lemma keys_set k v d :
  Py.keys (Py.set k v d) =
  if Py.mem k d then Py.keys d else Py.keys d ++ [k].
Proof.
  unfold Py.keys, Py.mem. induction d as [|[k0 v0] d IH]; cbn; [done|].
  destruct (decide (k = k0)) as [->|Hne]; cbn; [done|].
  rewrite IH. by destruct (Py.get k d).
Qed.

Lemma NoDup_keys_set k v d :
  NoDup (Py.keys d) → NoDup (Py.keys (Py.set k v d)).
Proof.
  intros Hd. rewrite keys_set. unfold Py.mem.
  destruct (Py.get k d) eqn:E; [done|].
  apply NoDup_app. split; [done|]. split; [|apply NoDup_singleton].
  intros x Hx Hx'. apply list_elem_of_singleton in Hx' as ->.
  by apply get_None_keys in E.
Qed.

Lemma NoDup_keys_filter (P : K * V → Prop) `{∀ x, Decision (P x)} d :
  NoDup (Py.keys d) → NoDup (Py.keys (filter P d)).
Proof.
  unfold Py.keys. intros Hd. eapply sublist_NoDup; [exact Hd|]. apply fmap_sublist, sublist_filter.
Qed.

(** A key occurs at most once among the items of a dictionary. *)
Lemma NoDup_keys_once k d :
  NoDup (Py.keys d) → (length (filter (λ kv, kv.1 = k) d) ≤ 1)%nat.
Proof.
  unfold Py.keys. induction d as [|[k0 v0] d IH]; [cbn; lia|].
  rewrite fmap_cons. intros Hd.
  apply NoDup_cons in Hd as [Hk0 Hd]. specialize (IH Hd).
  rewrite filter_cons. cbn [fst].
  destruct (decide (k0 = k)) as [->|Hne]; [|done]. cbn [length].
  replace (filter _ d) with (@nil (K * V)); [done|].
  symmetry. apply filter_none. apply Forall_forall. intros [k' v'] Hin Heq.
  cbn in Heq. subst k'. apply Hk0. apply list_elem_of_fmap. by exists (k, v').
Qed.

(** Replacing the value of a key: the other items stay, the new one has to
    satisfy the property. *)
Lemma Forall_set (P : K * V → Prop) k v d :
  NoDup (Py.keys d) →
  Forall (λ kv, kv.1 ≠ k → P kv) d → P (k, v) → Forall P (Py.set k v d).
Proof.
  unfold Py.keys. induction d as [|[k0 v0] d IH]; cbn; intros Hd Hall Hv.
  - by constructor.
  - apply NoDup_cons in Hd as [Hk0 Hd]. apply Forall_cons in Hall as [H0 Hall].
    destruct (decide (k = k0)) as [->|Hne].
    + constructor; [done|]. apply Forall_forall. intros [k' v'] Hin.
      rewrite Forall_forall in Hall. apply (Hall _ Hin). cbn. intros ->.
      apply Hk0. apply list_elem_of_fmap. by exists (k0, v').
    + constructor; [apply H0; cbn; congruence|]. by apply IH.
Qed.


Lemma Forall_set_all (P : K * V → Prop) k v d :
  Forall P d → P (k, v) → Forall P (Py.set k v d).
Proof.
  intros Hall Hv. apply Forall_forall. intros kv Hin.
  apply elem_of_set in Hin as [->|Hin]; [done|].
  rewrite Forall_forall in Hall. auto.
Qed.
End DictFacts.

Section SortFacts.
Context {A : Type} (key : A → Z).

Lemma insert_desc_perm x l : Py.insert_desc key x l ≡ₚ x :: l.
Proof.
  induction l as [|y l IH]; cbn; [done|].
  destruct (key x <? key y); [|done].
  rewrite IH. apply Permutation_swap.
Qed.

Lemma sorted_desc_perm l : Py.sorted_desc key l ≡ₚ l.
Proof.
  induction l as [|x l IH]; cbn; [done|].
  rewrite insert_desc_perm. by rewrite IH.
Qed.

Lemma sorted_desc_length l : length (Py.sorted_desc key l) = length l.
Proof. apply Permutation_length, sorted_desc_perm. Qed.

Lemma insert_desc_sorted x l :
  StronglySorted (Py.descending key) l → StronglySorted (Py.descending key) (Py.insert_desc key x l).
Proof.
  induction 1 as [|y l Hs IH Hy]; cbn; [by repeat constructor|].
  destruct (Z.ltb_spec (key x) (key y)).
  - constructor; [done|]. rewrite insert_desc_perm.
    constructor; [unfold Py.descending; lia|done].
  - constructor; [by constructor|]. constructor; [done|].
    eapply Forall_impl; [exact Hy|]. unfold Py.descending. cbn. intros. lia.
Qed.

Lemma sorted_desc_sorted l : StronglySorted (Py.descending key) (Py.sorted_desc key l).
Proof.
  induction l as [|x l IH]; cbn; [constructor|]. by apply insert_desc_sorted.
Qed.

Lemma insert_desc_stable c x l :
  filter (λ y, key y = c) (Py.insert_desc key x l) =
  filter (λ y, key y = c) (x :: l).
Proof.
  induction l as [|y l IH]; cbn [Py.insert_desc]; [done|].
  destruct (Z.ltb_spec (key x) (key y)); [|done].
  rewrite filter_cons, IH, !filter_cons.
  destruct (decide (key y = c)), (decide (key x = c)); try done. lia.
Qed.

(** Stability: the items of one key value come out in their input order. *)
Lemma sorted_desc_stable c l :
  filter (λ y, key y = c) (Py.sorted_desc key l) = filter (λ y, key y = c) l.
Proof.
  induction l as [|x l IH]; cbn [Py.sorted_desc foldr]; [done|].
  fold (Py.sorted_desc key l).
  rewrite insert_desc_stable, !filter_cons, IH. done.
Qed.
End SortFacts.

Lemma length_deque_append {A} (n : Z) (x : A) q :
  0 ≤ n → Z.of_nat (length (Py.deque_append n x q)) ≤ n.
Proof.
  intros Hn. unfold Py.deque_append. rewrite length_drop. lia.
Qed.

Lemma deque_append_snoc {A} (n : Z) (x : A) q :
  1 ≤ n →
  Py.deque_append n x q = drop (length q + 1 - Z.to_nat n) q ++ [x].
Proof.
  intros Hn. unfold Py.deque_append. rewrite length_app. cbn [length].
  rewrite drop_app_le by lia. done.
Qed.

Lemma deque_append_twice {A} (n : Z) (x : A) q :
  2 ≤ n →
  ∃ q', Py.deque_append n x (Py.deque_append n x q) = q' ++ [x; x].
Proof.
  intros Hn. rewrite (deque_append_snoc n x q) by lia.
  set (q1 := drop _ q). rewrite deque_append_snoc by lia.
  rewrite length_app. cbn [length].
  exists (drop (length q1 + 1 + 1 - Z.to_nat n) q1).
  rewrite drop_app_le by lia. by rewrite <- app_assoc.
Qed.

Lemma length_slice_last {A} (limit : Z) (l : list A) :
  (length (Py.slice_last limit l) ≤ length l)%nat.
Proof. unfold Py.slice_last. rewrite length_drop. lia. Qed.

Lemma slice_last_app {A} (limit : Z) (l k : list A) :
  Z.of_nat (length k) ≤ limit →
  ∃ l', Py.slice_last limit (l ++ k) = l' ++ k.
Proof.
  intros Hk. unfold Py.slice_last. rewrite length_app.
  set (start := if _ <? _ then _ else _).
  exists (drop (Z.to_nat start) l). rewrite drop_app_le; [done|].
  subst start. destruct (Z.ltb_spec (- limit) 0); lia.
Qed.

Lemma length_omap {A B} (f : A → option B) l :
  (length (omap f l) ≤ length l)%nat.
Proof.
  induction l as [|x l IH]; cbn; [done|]. destruct (f x); cbn; lia.
Qed.

Lemma StronglySorted_take {A} (R : A → A → Prop) (n : nat) (l : list A) :
  StronglySorted R l → StronglySorted R (take n l).
Proof.
  intros Hs. revert n. induction Hs as [|x l Hs IH Hx]; intros [|n]; cbn;
    try constructor; [apply IH|by apply Forall_take].
Qed.

(** ** The analyzer *)

Section AnalyzerFacts.
Import ThreatDetector.

Lemma destination_rarity_nonneg s e : 0 ≤ _check_destination_rarity s e.
Proof. unfold _check_destination_rarity. split_ifs; lia. Qed.

Lemma frequency_score_nonneg l : 0 ≤ frequency_score l.
Proof. unfold frequency_score. split_ifs; lia. Qed.

Lemma suspicious_ports_nonneg e : 0 ≤ _check_suspicious_ports e.
Proof. unfold _check_suspicious_ports. split_ifs; lia. Qed.

Lemma unusual_timing_nonneg env e : 0 ≤ _check_unusual_timing env e.
Proof. unfold _check_unusual_timing. split_ifs; lia. Qed.

Lemma first_time_process_nonneg s e : 0 ≤ (_check_first_time_process s e).1.
Proof. unfold _check_first_time_process. split_ifs; simpl; lia. Qed.

Lemma geographic_anomalies_nonneg e : 0 ≤ _check_geographic_anomalies e.
Proof. unfold _check_geographic_anomalies. split_ifs; lia. Qed.

Lemma process_anomalies_nonneg e : 0 ≤ _check_process_anomalies e.
Proof. unfold _check_process_anomalies. split_ifs; lia. Qed.

Lemma connection_patterns_nonneg s env e : 0 ≤ _check_connection_patterns s env e.
Proof. unfold _check_connection_patterns. split_ifs; lia. Qed.

Lemma rule_contributions_nonneg s env e : 0 ≤ Py.sum (rule_contributions s env e).
Proof.
  unfold rule_contributions, Py.sum. cbn [foldr].
  pose proof (destination_rarity_nonneg (track s env e) e).
  assert (0 ≤ _check_connection_frequency (track s env e) env e)
    by apply frequency_score_nonneg.
  pose proof (suspicious_ports_nonneg e).
  pose proof (unusual_timing_nonneg env e).
  pose proof (first_time_process_nonneg (track s env e) e).
  pose proof (geographic_anomalies_nonneg e).
  pose proof (process_anomalies_nonneg e).
  pose proof (connection_patterns_nonneg
                (_check_first_time_process (track s env e) e).2 env e).
  lia.
Qed.

(** The score before clamping, as [analyze_connection] computes it. *)
Lemma analyze_connection_unfold s env e :
  (analyze_connection s env e).1 =
  Py.int (Py.min 100 (Py.max 0
    (Py.max (inject_Z (Py.sum (rule_contributions s env e)))
            (anomaly_score s env e * 50)))).
Proof.
  unfold analyze_connection, rule_contributions, anomaly_score, Py.sum.
  destruct (_check_first_time_process (track s env e) e) as [ft s1] eqn:E1.
  destruct (_ml_anomaly_detection s1 env e) as [ml s2] eqn:E2.
  simpl. rewrite E2. simpl.
  repeat rewrite Z.add_0_r. repeat rewrite Z.add_assoc. reflexivity.
Qed.

(** The lower clamp at 0 never acts: the rules only add. *)
Lemma analyze_connection_formula s env e :
  (analyze_connection s env e).1 =
  Py.int (Py.min 100
            (Py.max (inject_Z (Py.sum (rule_contributions s env e)))
                    (anomaly_score s env e * 50))).
Proof.
  rewrite analyze_connection_unfold. apply int_min_max0.
  pose proof (rule_contributions_nonneg s env e) as H.
  pose proof (max_lower (inject_Z (Py.sum (rule_contributions s env e)))
                (anomaly_score s env e * 50)) as H1.
  assert (0 <= inject_Z (Py.sum (rule_contributions s env e)))%Q.
  { change 0%Q with (inject_Z 0). rewrite <- Zle_Qle. exact H. }
  lra.
Qed.

Lemma analyze_connection_range s env e :
  0 ≤ (analyze_connection s env e).1 ≤ 100.
Proof.
  rewrite analyze_connection_unfold. apply int_bounds; apply min_max0_range.
Qed.

End AnalyzerFacts.

(** ** One ingest, field by field *)

Section IngestFacts.
Import ConnectionHandler.

Lemma update_statistics_frame h env e :
  let h' := update_statistics h env e in
  max_connections h' = max_connections h ∧
  retention_minutes h' = retention_minutes h ∧
  threat_detector h' = threat_detector h ∧
  websocket_handler h' = websocket_handler h ∧
  connection_queue h' = connection_queue h ∧
  total_connections h' = total_connections h ∧
  process_stats h' =
    update_process_stats (now_update env) e (process_stats h) ∧
  connections h' =
    if total_connections h mod 100 =? 0
    then filter (λ ce : string * EnrichedEvent,
                   expired (retention_minutes h) (now_cleanup env) ce.2 = false)
           (connections h)
    else connections h.
Proof.
  unfold update_statistics. cbn.
  destruct (total_connections h mod 100 =? 0); cbn; repeat split.
Qed.

(** The event dictionary at the end of one ingest. *)
Lemma process_connection_event_event h env event :
  (process_connection_event h env event).2 =
  let e := enrich_connection_event (process_lookup env) event in
  match threat_detector h with
  | Some d =>
      let score := (ThreatDetector.analyze_connection d (analysis env) e).1 in
      scored e score (50 <=? score)
  | None => scored e 0 false
  end.
Proof.
  unfold process_connection_event.
  set (e := enrich_connection_event (process_lookup env) event).
  set (h1 := set_connection_queue _ _).
  destruct (update_statistics_frame h1 env e) as (_ & _ & Htd & _).
  rewrite Htd. subst h1. cbn.
  destruct (threat_detector h) as [d|]; cbn; [|reflexivity].
  by destruct (ThreatDetector.analyze_connection d (analysis env) e).
Qed.

(** The handler at the end of one ingest. *)
Lemma process_connection_event_frame h env event :
  let h' := (process_connection_event h env event).1 in
  let id := conn_id event in
  let e := enrich_connection_event (process_lookup env) event in
  let stored := Py.set id e (connections h) in
  let swept :=
    if total_connections h mod 100 =? 0
    then filter (λ ce : string * EnrichedEvent,
                   expired (retention_minutes h) (now_cleanup env) ce.2 = false)
           stored
    else stored in
  max_connections h' = max_connections h ∧
  retention_minutes h' = retention_minutes h ∧
  websocket_handler h' = websocket_handler h ∧
  connection_queue h' =
    Py.deque_append (max_connections h) id (connection_queue h) ∧
  total_connections h' = total_connections h + 1 ∧
  process_stats h' =
    update_process_stats (now_update env) e (process_stats h) ∧
  connections h' =
    if Py.mem id swept
    then Py.set id (process_connection_event h env event).2 swept
    else swept.
Proof.
  cbv zeta. rewrite process_connection_event_event.
  unfold process_connection_event.
  set (e := enrich_connection_event (process_lookup env) event).
  set (h1 := set_connection_queue _ _).
  destruct (update_statistics_frame h1 env e)
    as (Hmax & Hret & Htd & Hws & Hq & Htot & Hps & Hc).
  revert Hmax Hret Htd Hws Hq Htot Hps Hc.
  generalize (update_statistics h1 env e). intros h2. subst h1. cbn.
  intros Hmax Hret Htd Hws Hq Htot Hps Hc. rewrite Htd.
  destruct (threat_detector h) as [d|]; cbn.
  - destruct (ThreatDetector.analyze_connection d (analysis env) e)
      as [score d']. cbn. rewrite <- Hc.
    destruct (Py.mem (conn_id event) (connections h2)); cbn;
      rewrite ?Hmax, ?Hret, ?Hws, ?Hq, ?Htot, ?Hps; repeat split.
  - rewrite <- Hc.
    destruct (Py.mem (conn_id event) (connections h2)); cbn;
      rewrite ?Hmax, ?Hret, ?Hws, ?Hq, ?Htot, ?Hps; repeat split.
Qed.

Lemma ingest_all_snoc h steps step :
  ingest_all h (steps ++ [step]) = ingest (ingest_all h steps) step.
Proof. unfold ingest_all. apply foldl_snoc. Qed.

(** Induction over a run of ingests. *)
Lemma ingest_all_ind (P : t → Prop) h :
  P h → (∀ h' step, P h' → P (ingest h' step)) →
  ∀ steps, P (ingest_all h steps).
Proof.
  intros Hh Hstep steps. induction steps as [|step steps IH] using rev_ind.
  - exact Hh.
  - rewrite ingest_all_snoc. by apply Hstep.
Qed.

Lemma ingest_all_max_connections h steps :
  max_connections (ingest_all h steps) = max_connections h.
Proof.
  apply (ingest_all_ind (λ h', max_connections h' = max_connections h));
    [done|].
  intros h' [env event] <-. unfold ingest. cbn [fst snd].
  by destruct (process_connection_event_frame h' env event) as (-> & _).
Qed.

(** The queue never holds more than [max_connections] ids. *)
Lemma ingest_all_queue_bound h steps :
  0 ≤ max_connections h →
  Z.of_nat (length (connection_queue h)) ≤ max_connections h →
  Z.of_nat (length (connection_queue (ingest_all h steps)))
    ≤ max_connections h.
Proof.
  intros Hmax Hq.
  apply (ingest_all_ind
           (λ h', max_connections h' = max_connections h ∧
                  Z.of_nat (length (connection_queue h'))
                    ≤ max_connections h)); [done|].
  intros h' [env event] [Hm _]. unfold ingest. cbn [fst snd].
  destruct (process_connection_event_frame h' env event)
    as (-> & _ & _ & -> & _).
  split; [done|]. rewrite Hm. by apply length_deque_append.
Qed.

(** The keys of the store are pairwise distinct. *)
Lemma ingest_NoDup h step :
  NoDup (Py.keys (connections h)) →
  NoDup (Py.keys (connections (ingest h step))).
Proof.
  destruct step as [env event]. intros Hd. unfold ingest. cbn [fst snd].
  destruct (process_connection_event_frame h env event)
    as (_ & _ & _ & _ & _ & _ & ->).
  set (stored := Py.set _ _ (connections h)).
  assert (NoDup (Py.keys stored)) as Hs by by apply NoDup_keys_set.
  match goal with |- context [Py.mem _ ?w] => set (swept := w) end.
  assert (NoDup (Py.keys swept)) as Hw.
  { subst swept. destruct (_ =? _); [|done]. by apply NoDup_keys_filter. }
  destruct (Py.mem _ swept); [|done]. by apply NoDup_keys_set.
Qed.

Lemma ingest_all_NoDup h steps :
  NoDup (Py.keys (connections h)) →
  NoDup (Py.keys (connections (ingest_all h steps))).
Proof.
  intros Hd. apply (ingest_all_ind (λ h', NoDup (Py.keys (connections h'))));
    [done|].
  intros h' step. apply ingest_NoDup.
Qed.

End IngestFacts.

(** ** Invariants of the store *)

Section StoreFacts.
Import ConnectionHandler.

Lemma enrich_not_flagged lookup event :
  is_suspicious (enrich_connection_event lookup event) = None.
Proof. by destruct lookup. Qed.

Lemma size_add_destination (d : Z) (X : gset Z) :
  (size ({[ d ]} ∪ X) ≤ S (size X))%nat.
Proof.
  destruct (decide (d ∈ X)) as [Hin|Hout].
  - rewrite subseteq_union_1_L by (by apply singleton_subseteq_l). lia.
  - rewrite size_union by (by apply disjoint_singleton_l).
    rewrite size_singleton. lia.
Qed.

(** [update_process_stats] keeps the aggregates of every pid bounded. *)
Lemma update_process_stats_bounded now e ps :
  Forall (λ kv, stats_bounded kv.2) ps →
  Forall (λ kv, stats_bounded kv.2) (update_process_stats now e ps).
Proof.
  intros Hall. unfold update_process_stats. cbv zeta.
  set (stats := default _ _).
  assert (stats_bounded stats) as [Hd Hs].
  { subst stats. destruct (Py.get (pid (raw e)) ps) as [stats|] eqn:E.
    - apply get_elem_of in E. rewrite Forall_forall in Hall.
      apply (Hall _ E).
    - split; cbn; [rewrite size_empty|]; lia. }
  apply Forall_set_all; [done|]. split; cbn.
  - pose proof (size_add_destination (daddr (raw e))
                  (unique_destinations stats)). lia.
  - destruct (default false (is_suspicious e)); lia.
Qed.

(** [update_statistics] runs before the score is attached, so it never
    counts an event as suspicious. *)
Lemma update_process_stats_unflagged now e ps :
  is_suspicious e = None →
  Forall (λ kv, suspicious_count kv.2 = 0) ps →
  Forall (λ kv, suspicious_count kv.2 = 0) (update_process_stats now e ps).
Proof.
  intros He Hall. unfold update_process_stats. cbv zeta.
  apply Forall_set_all; [done|]. cbn. rewrite He. cbn.
  destruct (Py.get (pid (raw e)) ps) as [stats|] eqn:E; [|done].
  apply get_elem_of in E. rewrite Forall_forall in Hall. apply (Hall _ E).
Qed.

Lemma ingest_all_stats_bounded h steps :
  Forall (λ kv, stats_bounded kv.2) (process_stats h) →
  Forall (λ kv, stats_bounded kv.2) (process_stats (ingest_all h steps)).
Proof.
  intros Hh.
  apply (ingest_all_ind
           (λ h', Forall (λ kv, stats_bounded kv.2) (process_stats h')));
    [done|].
  intros h' [env event] IH. unfold ingest. cbn [fst snd].
  destruct (process_connection_event_frame h' env event)
    as (_ & _ & _ & _ & _ & -> & _).
  by apply update_process_stats_bounded.
Qed.

Lemma ingest_all_never_counts_suspicious h steps :
  Forall (λ kv, suspicious_count kv.2 = 0) (process_stats h) →
  Forall (λ kv, suspicious_count kv.2 = 0)
    (process_stats (ingest_all h steps)).
Proof.
  intros Hh.
  apply (ingest_all_ind
           (λ h', Forall (λ kv, suspicious_count kv.2 = 0)
                    (process_stats h'))); [done|].
  intros h' [env event] IH. unfold ingest. cbn [fst snd].
  destruct (process_connection_event_frame h' env event)
    as (_ & _ & _ & _ & _ & -> & _).
  apply update_process_stats_unflagged; [apply enrich_not_flagged|done].
Qed.

Lemma process_connection_event_scored h env event :
  scored_event (process_connection_event h env event).2.
Proof.
  rewrite process_connection_event_event. cbv zeta.
  destruct (threat_detector h) as [d|].
  - eexists. split; [reflexivity|]. split; [|reflexivity].
    apply analyze_connection_range.
  - exists 0. cbn. repeat split; lia.
Qed.

(** Every stored event is scored and flagged once its ingest is over. *)
Lemma ingest_scored h step :
  NoDup (Py.keys (connections h)) →
  Forall (λ ce, scored_event ce.2) (connections h) →
  Forall (λ ce, scored_event ce.2) (connections (ingest h step)).
Proof.
  destruct step as [env event]. intros Hd Hall. unfold ingest. cbn [fst snd].
  destruct (process_connection_event_frame h env event)
    as (_ & _ & _ & _ & _ & _ & ->).
  pose proof (process_connection_event_scored h env event) as Hnew.
  set (id := conn_id event) in *.
  set (stored := Py.set id _ (connections h)).
  assert (NoDup (Py.keys stored)) as Hs by by apply NoDup_keys_set.
  assert (Forall (λ ce : string * EnrichedEvent,
                    ce.1 ≠ id → scored_event ce.2) stored) as Hst.
  { apply Forall_forall. intros ce Hin Hne.
    apply elem_of_set in Hin as [->|Hin]; [done|].
    rewrite Forall_forall in Hall. by apply Hall. }
  match goal with |- context [Py.mem _ ?w] => set (swept := w) end.
  assert (NoDup (Py.keys swept) ∧
          Forall (λ ce : string * EnrichedEvent,
                    ce.1 ≠ id → scored_event ce.2) swept) as [Hw Hsw].
  { subst swept. destruct (_ =? _); [|done]. split.
    - by apply NoDup_keys_filter.
    - apply Forall_forall. intros ce Hin. rewrite Forall_forall in Hst.
      apply Hst. by apply list_elem_of_filter in Hin as [_ Hin]. }
  unfold Py.mem. destruct (Py.get id swept) eqn:E.
  - by apply Forall_set.
  - apply get_None_keys in E. apply Forall_forall. intros [k e] Hin.
    rewrite Forall_forall in Hsw. apply (Hsw _ Hin). cbn. intros ->.
    apply E. unfold Py.keys. apply list_elem_of_fmap. by exists (id, e).
Qed.

Lemma ingest_all_scored h steps :
  NoDup (Py.keys (connections h)) →
  Forall (λ ce, scored_event ce.2) (connections h) →
  Forall (λ ce, scored_event ce.2) (connections (ingest_all h steps)).
Proof.
  intros Hd Hall.
  apply (ingest_all_ind
           (λ h', NoDup (Py.keys (connections h')) ∧
                  Forall (λ ce, scored_event ce.2) (connections h')));
    [done|].
  intros h' step [Hd' Hall']. split; [by apply ingest_NoDup|].
  by apply ingest_scored.
Qed.

End StoreFacts.

(** ** Rule 2 on growing histories *)

Section FrequencyFacts.
Import ThreatDetector.

Lemma filter_sublist {A} (P : A → Prop) `{∀ x, Decision (P x)} (l1 l2 : list A) :
  l1 `sublist_of` l2 → filter P l1 `sublist_of` filter P l2.
Proof.
  induction 1 as [|x l1 l2 _ IH|x l1 l2 _ IH]; [constructor| |].
  - rewrite !filter_cons. destruct (decide (P x)); [by constructor|done].
  - rewrite filter_cons. destruct (decide (P x)); [by constructor|done].
Qed.

Lemma count_to_sublist d l1 l2 :
  l1 `sublist_of` l2 → (count_to d l1 ≤ count_to d l2)%nat.
Proof. intros H. apply sublist_length. by apply filter_sublist. Qed.

Lemma count_to_snoc d l c :
  count_to d (l ++ [c]) =
  (count_to d l + if decide (c_dst_ip c = d) then 1 else 0)%nat.
Proof.
  unfold count_to. rewrite filter_app, length_app, filter_cons, filter_nil.
  by destruct (decide (c_dst_ip c = d)).
Qed.

Lemma dst_counts_lookup l d :
  dst_counts l !! d =
  if decide (count_to d l = 0%nat) then None else Some (Z.of_nat (count_to d l)).
Proof.
  induction l as [|c l IH] using rev_ind.
  - done.
  - unfold dst_counts in *. rewrite foldl_snoc, count_to_snoc.
    destruct (decide (c_dst_ip c = d)) as [->|Hne].
    + rewrite lookup_insert_eq, IH.
      destruct (decide (count_to d l = 0%nat)) as [Hz|Hz].
      * rewrite Hz. cbn. done.
      * rewrite decide_False by lia. cbn. f_equal. lia.
    + rewrite lookup_insert_ne by done. rewrite IH, Nat.add_0_r. done.
Qed.

Lemma max_value_spec (m : gmap string Z) :
  (∀ k v, m !! k = Some v → v ≤ max_value m) ∧
  (max_value m = 0 ∨ ∃ k, m !! k = Some (max_value m)).
Proof.
  unfold max_value.
  apply (map_fold_weak_ind
           (λ r (m : gmap string Z),
              (∀ k v, m !! k = Some v → v ≤ r) ∧
              (r = 0 ∨ ∃ k, m !! k = Some r))).
  - split; [|by left]. intros k v. by rewrite lookup_empty.
  - intros i x m' r Hi [Hub Hwit]. split.
    + intros k v. destruct (decide (i = k)) as [->|Hne].
      * rewrite lookup_insert_eq. intros [= ->]. lia.
      * rewrite lookup_insert_ne by done. intros Hk.
        specialize (Hub k v Hk). lia.
    + destruct (Z.max_spec x r) as [[Hlt ->]|[Hle ->]].
      * destruct Hwit as [->|[k Hk]]; [by left|]. right. exists k.
        rewrite lookup_insert_ne; [done|]. intros ->. congruence.
      * right. exists i. by rewrite lookup_insert_eq.
Qed.

Lemma max_dst_count_sublist l1 l2 :
  l1 `sublist_of` l2 →
  max_value (dst_counts l1) ≤ max_value (dst_counts l2).
Proof.
  intros Hsub.
  destruct (max_value_spec (dst_counts l1)) as [_ [Hz|[k Hk]]].
  - rewrite Hz.
    destruct (max_value_spec (dst_counts l2)) as [_ [->|[k Hk]]]; [done|].
    rewrite dst_counts_lookup in Hk. destruct (decide _); [done|].
    injection Hk as Hk. lia.
  - rewrite dst_counts_lookup in Hk.
    destruct (decide (count_to k l1 = 0%nat)) as [|Hpos]; [done|].
    injection Hk as Hk. rewrite <- Hk.
    destruct (max_value_spec (dst_counts l2)) as [Hub _].
    pose proof (count_to_sublist k l1 l2 Hsub) as Hle.
    transitivity (Z.of_nat (count_to k l2)); [lia|].
    apply (Hub k). rewrite dst_counts_lookup.
    rewrite decide_False by lia. done.
Qed.

Lemma frequency_score_sublist l1 l2 :
  l1 `sublist_of` l2 → frequency_score l1 ≤ frequency_score l2.
Proof.
  intros Hsub.
  pose proof (sublist_length _ _ Hsub) as Hlen.
  pose proof (max_dst_count_sublist _ _ Hsub) as Hmax.
  unfold frequency_score.
  repeat match goal with
         | |- context [?a <? ?b] => destruct (Z.ltb_spec a b)
         | |- context [?a <=? ?b] => destruct (Z.leb_spec a b)
         end; lia.
Qed.

End FrequencyFacts.

(** ** The rate limiter *)

Section RateLimitFacts.
Import WebSocketHandler.



Lemma fresh_now now : fresh now [now] = [now].
Proof.
  unfold fresh. rewrite filter_cons, decide_True; [done|].
  apply Qltb_lt. lra.
Qed.

(** [check_rate_limit] on the window of the client it is asked about ... *)
Lemma check_rate_limit_spec s now c :
  let w := fresh now (window_of s c) in
  let r := check_rate_limit s now c in
  r.1 = (Z.of_nat (length w) <? rate_limit) ∧
  window_of r.2 c = (if r.1 then w ++ [now] else w) ∧
  clients r.2 = clients s ∧
  client_metadata r.2 = client_metadata s ∧
  messages_sent r.2 = messages_sent s.
Proof.
  unfold check_rate_limit, window_of, fresh. cbn zeta.
  destruct (_ <? _); cbn [fst snd client_message_counts clients
                           client_metadata messages_sent];
    rewrite lookup_insert_eq; done.
Qed.

(** ... and on the windows of the others. *)
Lemma check_rate_limit_other s now c c' :
  c ≠ c' → window_of (check_rate_limit s now c).2 c' = window_of s c'.
Proof.
  intros Hne. unfold check_rate_limit, window_of.
  destruct (_ <? _); cbn [snd client_message_counts];
    by rewrite lookup_insert_ne.
Qed.

(** The three ways a [send_message] can go. *)
Lemma send_message_cases s env c ws m :
  let chk := check_rate_limit s (now_check env) c in
  send_message s env c ws m =
    if negb chk.1 then (chk.2, [])
    else if send_ok env
         then (sent chk.2 (now_sent env) c,
               [ {| f_client := c; f_socket := ws;
                    f_time := now_check env; f_message := m |} ])
         else (cleanup_client chk.2 c, []).
Proof.
  unfold send_message. cbn zeta.
  by destruct (check_rate_limit s (now_check env) c) as [a s'].
Qed.

Lemma window_of_sent s now c c' : window_of (sent s now c) c' = window_of s c'.
Proof. reflexivity. Qed.

Lemma window_of_cleanup_other s c c' :
  c ≠ c' → window_of (cleanup_client s c) c' = window_of s c'.
Proof.
  intros Hne. unfold window_of, cleanup_client. cbn.
  by rewrite lookup_delete_ne.
Qed.

Section RateLimit.
Variable client : string.











End RateLimit.

End RateLimitFacts.

(** ** The keys of the store *)

Section KeyFacts.
Import ConnectionHandler.

Lemma enrich_connection_event_raw lookup event :
  raw (enrich_connection_event lookup event) = event.
Proof. by destruct lookup. Qed.

Lemma process_connection_event_raw h env event :
  raw (process_connection_event h env event).2 = event.
Proof.
  rewrite process_connection_event_event. cbv zeta.
  destruct (threat_detector h); cbn [scored raw];
    apply enrich_connection_event_raw.
Qed.

Lemma ingest_keyed h step :
  keyed (connections h) → keyed (connections (ingest h step)).
Proof.
  destruct step as [env event]. unfold keyed. intros Hall.
  unfold ingest. cbn [fst snd].
  destruct (process_connection_event_frame h env event)
    as (_ & _ & _ & _ & _ & _ & ->).
  set (stored := Py.set _ _ (connections h)).
  assert (Forall (λ ce : string * EnrichedEvent, conn_id (raw ce.2) = ce.1)
            stored) as Hst.
  { apply Forall_set_all; [done|]. cbn [fst snd].
    by rewrite enrich_connection_event_raw. }
  match goal with |- context [Py.mem _ ?w] => set (swept := w) end.
  assert (Forall (λ ce : string * EnrichedEvent, conn_id (raw ce.2) = ce.1)
            swept) as Hsw.
  { subst swept. destruct (_ =? _); [|done].
    apply Forall_forall. intros ce Hin.
    apply list_elem_of_filter in Hin as [_ Hin].
    rewrite Forall_forall in Hst. auto. }
  destruct (Py.mem (conn_id event) swept); [|done].
  apply Forall_set_all; [done|]. cbn [fst snd].
  by rewrite process_connection_event_raw.
Qed.

Lemma ingest_all_keyed h steps :
  keyed (connections h) → keyed (connections (ingest_all h steps)).
Proof.
  intros Hk. apply (ingest_all_ind (λ h', keyed (connections h'))); [done|].
  intros h' step. apply ingest_keyed.
Qed.

(** A listing looked up in a keyed store shows the event of an id once per
    occurrence of the id. *)
Lemma listed_lookup id (store : Py.dict string EnrichedEvent) ids :
  keyed store →
  length (listed id (omap (λ k, Py.get k store) ids)) =
  if Py.mem id store then length (queued id ids) else 0%nat.
Proof.
  intros Hk. unfold listed, queued, Py.mem.
  induction ids as [|k ids IH]; [by destruct (Py.get id store)|].
  cbn [omap list_omap]. rewrite (filter_cons (λ k, k = id)).
  destruct (Py.get k store) as [e|] eqn:E.
  - assert (conn_id (raw e) = k) as He.
    { apply get_elem_of in E. unfold keyed in Hk.
      rewrite Forall_forall in Hk. exact (Hk _ E). }
    rewrite filter_cons, He.
    destruct (decide (k = id)) as [->|Hne].
    + rewrite E in *. cbn [length]. by rewrite IH.
    + exact IH.
  - destruct (decide (k = id)) as [->|Hne]; [|exact IH].
    rewrite E in *. exact IH.
Qed.

Lemma listed_recent h id limit :
  keyed (connections h) →
  length (listed id (get_recent_connections h limit)) =
  if Py.mem id (connections h)
  then length (queued id (Py.slice_last limit (connection_queue h)))
  else 0%nat.
Proof.
  intros Hk. unfold get_recent_connections. cbv zeta.
  rewrite <- (listed_lookup id (connections h)) by done.
  apply Permutation_length. unfold listed.
  by rewrite sorted_desc_perm.
Qed.

End KeyFacts.

(** * The claims of the specification *)

Section Claims.
Import ConnectionHandler.

(** ** C1: score combination *)

(** C1.  The score returned by [analyze_connection] is the integer value of
    [min(100, max(rule_sum, anomaly * 50))], where [rule_sum] is the sum of
    the eight rule contributions; it lies in [[0,100]]; and the event that
    leaves [process_connection_event] carries that score with
    [is_suspicious] set exactly when the score is at least 50 (score 0 and
    not suspicious when no analyzer is attached). *)
Theorem threat_score_combination h env event :
  let e := enrich_connection_event (process_lookup env) event in
  let final d :=
    Py.int (Py.min 100
      (Py.max (inject_Z (Py.sum (ThreatDetector.rule_contributions
                                   d (analysis env) e)))
              (ThreatDetector.anomaly_score d (analysis env) e * 50))) in
  let out := (process_connection_event h env event).2 in
  (∀ d, (ThreatDetector.analyze_connection d (analysis env) e).1 = final d ∧
        0 ≤ final d ≤ 100) ∧
  match threat_detector h with
  | Some d =>
      threat_score out = Some (final d) ∧
      is_suspicious out = Some (50 <=? final d)
  | None => threat_score out = Some 0 ∧ is_suspicious out = Some false
  end.
Proof.
  cbv zeta. split.
  - intros d. rewrite <- analyze_connection_formula. split; [done|].
    apply analyze_connection_range.
  - rewrite process_connection_event_event. cbv zeta.
    destruct (threat_detector h) as [d|]; [|done].
    by rewrite <- analyze_connection_formula.
Qed.

(** The first scenario of the specification: a shell started from /tmp
    connects to port 4444 of a public host.  The rules give 30 for the
    port, 15 for the first connection of the pid, 5 for the public
    destination and 50 for the process; the event is scored 100. *)
Example shell_scores_100 :
  let e := enrich_connection_event Scenario.bash_in_tmp
             (Scenario.shell_ingest.2) in
  ThreatDetector.rule_contributions ThreatDetector.init
    (Scenario.weekday_noon 1) e = [0; 0; 30; 0; 15; 5; 50; 0] ∧
  (ThreatDetector.analyze_connection ThreatDetector.init
     (Scenario.weekday_noon 1) e).1 = 100.
Proof. vm_compute. repeat split; reflexivity. Qed.

(** Every event in the store is scored in [[0,100]] and flagged from 50
    on, after any run of ingests (P2 of the specification). *)
Lemma retained_events_scored max ret detector t0 steps :
  Forall (λ ce, scored_event ce.2)
    (connections (ingest_all (init max ret detector t0) steps)).
Proof. apply ingest_all_scored; cbn; constructor. Qed.

(** ** C2: the order of the steps of one ingest *)

(** C2.  The code stores the event and updates the aggregates before it
    scores the event: after the ingest of the shell connection, which is
    scored 100 and stored as suspicious, the aggregate of its pid counts one
    connection and no suspicious one. *)
Theorem suspicious_event_not_counted :
  let r := process_connection_event Scenario.fresh_handler
             Scenario.shell_ingest.1 Scenario.shell_ingest.2 in
  threat_score r.2 = Some 100 ∧
  is_suspicious r.2 = Some true ∧
  is_suspicious <$> Py.get (conn_id Scenario.shell_ingest.2) (connections r.1)
    = Some (Some true) ∧
  connection_count <$> Py.get 7 (process_stats r.1) = Some 1 ∧
  suspicious_count <$> Py.get 7 (process_stats r.1) = Some 0.
Proof. vm_compute. repeat split; reflexivity. Qed.

(** No run of ingests ever counts a suspicious connection: the event
    reaches [update_statistics] without its [is_suspicious] key. *)
Lemma suspicious_count_stays_zero max ret detector t0 steps :
  Forall (λ kv, suspicious_count kv.2 = 0)
    (process_stats (ingest_all (init max ret detector t0) steps)).
Proof. apply ingest_all_never_counts_suspicious. constructor. Qed.

(** ** C3: the bounds of the store *)

(** C3, as the claim states it, fails: with [max_connections = 3], four
    connections ingested at seconds 1 to 4 are all four in the store, and
    none of them is older than the retention period. *)
Lemma store_exceeds_max_connections :
  let h := ingest_all Scenario.small_handler Scenario.four_ingests in
  ¬ (Z.of_nat (length (connections h)) ≤ max_connections h) ∧
  Forall (λ ce, expired (retention_minutes h) 4 ce.2 = false)
    (connections h).
Proof.
  cbv zeta. split.
  - vm_compute. intros H. by apply H.
  - vm_compute. repeat constructor.
Qed.

(** C3, amended.  After any run of ingests into a handler created with
    [max_connections ≥ 0], the queue of connection ids holds at most
    [max_connections] ids, and so does every listing of recent
    connections; the age sweep removes exactly the stored events that are
    older than the retention period and keeps the others. *)
Theorem queue_bounded_store_swept max ret detector t0 steps :
  0 ≤ max →
  let h := ingest_all (init max ret detector t0) steps in
  Z.of_nat (length (connection_queue h)) ≤ max ∧
  (∀ limit, Z.of_nat (length (get_recent_connections h limit)) ≤ max) ∧
  (∀ now ce,
     ce ∈ connections (cleanup_old_connections h now) ↔
     ce ∈ connections h ∧ expired (retention_minutes h) now ce.2 = false).
Proof.
  intros Hmax. cbv zeta.
  assert (Z.of_nat (length (connection_queue
                              (ingest_all (init max ret detector t0) steps)))
          ≤ max) as Hq.
  { apply (ingest_all_queue_bound (init max ret detector t0)); cbn; lia. }
  split; [done|]. split.
  - intros limit. unfold get_recent_connections.
    rewrite sorted_desc_length.
    pose proof (length_omap
                  (λ id, Py.get id (connections
                     (ingest_all (init max ret detector t0) steps)))
                  (Py.slice_last limit (connection_queue
                     (ingest_all (init max ret detector t0) steps)))).
    pose proof (length_slice_last limit
                  (connection_queue
                     (ingest_all (init max ret detector t0) steps))).
    lia.
  - intros now ce. unfold cleanup_old_connections. cbn.
    rewrite list_elem_of_filter. tauto.
Qed.

(** A handler for three connections, fed four. *)
Lemma queue_bounded_store_swept_witness :
  0 ≤ 3 ∧
  Z.of_nat (length (connection_queue
    (ingest_all (init 3 5 (Some ThreatDetector.init) 0)
       Scenario.four_ingests))) ≤ 3.
Proof.
  split; [lia|].
  exact (proj1 (queue_bounded_store_swept 3 5 (Some ThreatDetector.init) 0
                  Scenario.four_ingests ltac:(lia))).
Defined.

(** ** C4: the same raw event twice *)

(** C4, as the claim states it, fails: after two ingests of one raw event
    the store holds one event under its connection id, and the listing of
    recent connections shows it twice. *)
Lemma repeated_event_listed_twice :
  let h := ingest_all Scenario.fresh_handler Scenario.twice in
  let id := conn_id Scenario.repeated in
  length (connections h) = 1%nat ∧
  length (listed id (get_recent_connections h 1000)) ≠ 1%nat.
Proof. vm_compute. split; [reflexivity|]. intros H. discriminate H. Qed.

(** C4, amended.  A raw event is ingested into a handler with
    [max_connections ≥ 2] and, after any other ingests, ingested again.
    The store then holds at most one event under the connection id, the
    event of this last ingest; the id is queued at each ingest, so every
    listing shows the stored event once per occurrence of the id among the
    queued ids it looks up; and right after two consecutive ingests of the
    event the queue ends with the id twice and a listing of at least two
    recent connections shows the stored event twice. *)
Theorem repeated_event_stored_once max ret detector t0 steps env1 between
    env2 event :
  2 ≤ max →
  let h := ingest_all (init max ret detector t0) steps in
  let h1 := ingest h (env1, event) in
  let hb := ingest_all h1 between in
  let h2 := ingest hb (env2, event) in
  let hc := ingest h1 (env2, event) in
  let id := conn_id event in
  (length (filter (λ ce, ce.1 = id) (connections h2)) ≤ 1)%nat ∧
  (∀ e, Py.get id (connections h2) = Some e →
        e = (process_connection_event hb env2 event).2) ∧
  connection_queue h1 = Py.deque_append max id (connection_queue h) ∧
  connection_queue h2 = Py.deque_append max id (connection_queue hb) ∧
  (∀ limit,
     length (listed id (get_recent_connections h2 limit)) =
     if Py.mem id (connections h2)
     then length (queued id (Py.slice_last limit (connection_queue h2)))
     else 0%nat) ∧
  (∃ q, connection_queue hc = q ++ [id; id]) ∧
  (∀ limit e, 2 ≤ limit → Py.get id (connections hc) = Some e →
     ∃ rest, get_recent_connections hc limit ≡ₚ rest ++ [e; e]).
Proof.
  intros Hmax. cbv zeta.
  set (h := ingest_all (init max ret detector t0) steps).
  set (h1 := ingest h (env1, event)).
  set (hb := ingest_all h1 between).
  set (h2 := ingest hb (env2, event)).
  set (hc := ingest h1 (env2, event)).
  assert (max_connections h = max) as Hm
    by apply (ingest_all_max_connections (init max ret detector t0)).
  assert (connection_queue h1
          = Py.deque_append max (conn_id event) (connection_queue h)) as Hq1.
  { subst h1. unfold ingest. cbn [fst snd].
    destruct (process_connection_event_frame h env1 event)
      as (_ & _ & _ & -> & _). by rewrite Hm. }
  assert (max_connections h1 = max) as Hm1.
  { subst h1. unfold ingest. cbn [fst snd].
    by destruct (process_connection_event_frame h env1 event) as (-> & _). }
  assert (max_connections hb = max) as Hmb.
  { subst hb. by rewrite ingest_all_max_connections. }
  assert (NoDup (Py.keys (connections h1))) as Hnd1.
  { apply ingest_NoDup, ingest_all_NoDup. cbn. constructor. }
  assert (keyed (connections h2)) as Hk2.
  { apply ingest_keyed, ingest_all_keyed, ingest_keyed, ingest_all_keyed.
    constructor. }
  assert (∀ g (e : EnrichedEvent),
            Py.get (conn_id event)
              (connections (ingest g (env2, event))) = Some e →
            e = (process_connection_event g env2 event).2) as Hlast.
  { intros g e. unfold ingest. cbn [fst snd].
    destruct (process_connection_event_frame g env2 event)
      as (_ & _ & _ & _ & _ & _ & ->).
    match goal with |- context [Py.mem _ ?w] => set (swept := w) end.
    destruct (Py.mem (conn_id event) swept) eqn:E.
    + rewrite get_set_eq. by intros [= <-].
    + unfold Py.mem in E. by destruct (Py.get (conn_id event) swept). }
  assert (∃ q, connection_queue hc = q ++ [conn_id event; conn_id event])
    as [q Hq].
  { subst hc. unfold ingest at 1. cbn [fst snd].
    destruct (process_connection_event_frame h1 env2 event)
      as (_ & _ & _ & -> & _).
    rewrite Hm1, Hq1. by apply deque_append_twice. }
  split.
  { apply NoDup_keys_once. by apply ingest_NoDup, ingest_all_NoDup. }
  split; [apply Hlast|]. split; [exact Hq1|]. split.
  { subst h2. unfold ingest. cbn [fst snd].
    destruct (process_connection_event_frame hb env2 event)
      as (_ & _ & _ & -> & _). by rewrite Hmb. }
  split; [intros limit; by apply listed_recent|].
  split; [by exists q|].
  intros limit e Hlimit Hget. unfold get_recent_connections. rewrite Hq.
  destruct (slice_last_app limit q [conn_id event; conn_id event])
    as [q' ->]; [cbn; lia|].
  rewrite omap_app. cbn. rewrite Hget. cbn.
  eexists. apply sorted_desc_perm.
Qed.

(** The repeated event of the scenario, after an empty run. *)
Lemma repeated_event_stored_once_witness :
  2 ≤ 10000 ∧
  (length (filter (λ ce, ce.1 = conn_id Scenario.repeated)
     (connections (ingest_all Scenario.fresh_handler Scenario.twice)))
   ≤ 1)%nat.
Proof.
  split; [lia|].
  exact (proj1 (repeated_event_stored_once 10000 5
                  (Some ThreatDetector.init) 0 []
                  (Scenario.at_time 1 NoSuchProcess) []
                  (Scenario.at_time 1 NoSuchProcess) Scenario.repeated
                  ltac:(lia))).
Defined.

(** With another connection in between, a listing of two shows the event
    once, and a listing of three shows it twice. *)
Example separated_event_listed_per_queue_entry :
  let h := ingest_all Scenario.fresh_handler Scenario.separated in
  let id := conn_id Scenario.repeated in
  length (listed id (get_recent_connections h 2)) = 1%nat ∧
  length (listed id (get_recent_connections h 3)) = 2%nat.
Proof. vm_compute. split; reflexivity. Qed.

(** ** C5: the safe ports of the enricher *)

(** C5.  The set of safe ports of the handler lacks 9418, which the set of
    the analyzer has: the enriched event of a connection to port 9418 has
    [is_safe_port = False]. *)
Theorem git_port_not_safe :
  is_safe_port <$>
    enrichment (enrich_connection_event NoSuchProcess Scenario.git_fetch)
    = Some false ∧
  bool_decide (9418 ∈ ThreatDetector.safe_ports) = true ∧
  bool_decide (9418 ∈ ConnectionHandler.safe_ports) = false.
Proof. vm_compute. repeat split; reflexivity. Qed.

(** Apart from 9418 the two sets agree. *)
Lemma safe_ports_differ_by_git :
  ThreatDetector.safe_ports = ConnectionHandler.safe_ports ∪ {[ 9418 ]}.
Proof. unfold ThreatDetector.safe_ports, safe_ports. set_solver. Qed.

(** ** C6: the rate limiter *)




(** There 100 frames go out, 50 are dropped, and the client is still
    registered with its socket. *)
Example burst_delivers_100 :
  length (WebSocketHandler.send_all Scenario.registered Scenario.burst).2
    = 100%nat ∧
  Py.get "client-1"
    (WebSocketHandler.clients
       (WebSocketHandler.send_all Scenario.registered Scenario.burst).1)
    = Some 1%nat.
Proof. vm_compute. split; reflexivity. Qed.

(** ** C7: the top lists of the statistics *)

(** C7, as the claim states it, fails: pid 9 is seen at second 1 and pid 5
    at second 2, each once.  The claimed tie-break puts pid 5, seen last,
    first; the code lists pid 9 first.  The destinations, each counted
    once, come out in the order of their first use, not of their
    addresses. *)
Lemma ties_keep_insertion_order :
  let h := ingest_all Scenario.fresh_handler Scenario.two_processes in
  let s := get_statistics h 3 in
  ¬ StronglySorted claimed_process_order (st_top_processes s) ∧
  ¬ StronglySorted claimed_destination_order (st_top_destinations s).
Proof.
  cbv zeta. split.
  - assert ((λ x : Z * ProcessStats,
               (x.1, connection_count x.2, last_seen x.2)) <$>
            st_top_processes
              (get_statistics
                 (ingest_all Scenario.fresh_handler Scenario.two_processes) 3)
            = [ (9, 1, 1%Q); (5, 1, 2%Q) ]) as Htop
      by (vm_compute; reflexivity).
    destruct (st_top_processes _) as [|x [|y [|z l]]]; try discriminate Htop.
    injection Htop as Hx1 Hx2 Hx3 Hy1 Hy2 Hy3.
    intros Hs. apply StronglySorted_inv in Hs as [_ Hs].
    apply Forall_cons in Hs as [Hs _]. unfold claimed_process_order in Hs.
    cbv zeta in Hs. rewrite Hx2, Hx3, Hy2, Hy3, Hx1, Hy1 in Hs.
    destruct Hs as [Hs|[_ [Hs|[Hs _]]]]; [lia|lra|lra].
  - assert (st_top_destinations
              (get_statistics
                 (ingest_all Scenario.fresh_handler Scenario.two_processes) 3)
            = [ (Scenario.host_a, 1); (Scenario.host_b, 1) ]) as ->
      by (vm_compute; reflexivity).
    intros Hs. apply StronglySorted_inv in Hs as [_ Hs].
    apply Forall_cons in Hs as [Hs _]. unfold claimed_destination_order in Hs.
    vm_compute in Hs. destruct Hs as [Hs|[_ Hs]]; discriminate Hs.
Qed.

(** C7, amended.  [top_processes] is the first ten entries of the
    per-pid aggregates sorted by descending [connection_count], and
    [top_destinations] the first ten destinations sorted by descending
    count; entries with equal counts keep the order in which their keys
    entered the dictionary. *)
Theorem top_lists_sorted_stable h now :
  let s := get_statistics h now in
  let count (x : Z * ProcessStats) := connection_count x.2 in
  let freq (x : Z * Z) := x.2 in
  (∃ full,
     st_top_processes s = take 10 full ∧ full ≡ₚ process_stats h ∧
     StronglySorted (Py.descending count) full ∧
     ∀ c, filter (λ x, count x = c) full
          = filter (λ x, count x = c) (process_stats h)) ∧
  (∃ full,
     st_top_destinations s = take 10 full ∧ full ≡ₚ ip_frequency h ∧
     StronglySorted (Py.descending freq) full ∧
     ∀ c, filter (λ x, freq x = c) full
          = filter (λ x, freq x = c) (ip_frequency h)) ∧
  StronglySorted (Py.descending count) (st_top_processes s) ∧
  StronglySorted (Py.descending freq) (st_top_destinations s) ∧
  (length (st_top_processes s) ≤ 10)%nat ∧
  (length (st_top_destinations s) ≤ 10)%nat.
Proof.
  cbv zeta. unfold get_statistics. cbn.
  split; [|split; [|split; [|split; [|split]]]].
  - eexists. split; [reflexivity|]. split; [apply sorted_desc_perm|].
    split; [apply sorted_desc_sorted|]. intros c. apply sorted_desc_stable.
  - eexists. split; [reflexivity|]. split; [apply sorted_desc_perm|].
    split; [apply sorted_desc_sorted|]. intros c. apply sorted_desc_stable.
  - apply StronglySorted_take, sorted_desc_sorted.
  - apply StronglySorted_take, sorted_desc_sorted.
  - rewrite length_take. lia.
  - rewrite length_take. lia.
Qed.

(** ** C8: the per-pid aggregates *)

(** C8.  After any run of ingests, every pid in [process_stats] has at most
    as many unique destinations as connections, and at most as many
    suspicious connections as connections. *)
Theorem process_stats_bounded max ret detector t0 steps p stats :
  Py.get p (process_stats (ingest_all (init max ret detector t0) steps))
    = Some stats →
  Z.of_nat (size (unique_destinations stats)) ≤ connection_count stats ∧
  suspicious_count stats ≤ connection_count stats.
Proof.
  intros Hget. apply get_elem_of in Hget.
  assert (Forall (λ kv, stats_bounded kv.2)
            (process_stats (ingest_all (init max ret detector t0) steps)))
    as Hall by (apply ingest_all_stats_bounded; constructor).
  rewrite Forall_forall in Hall. apply (Hall (p, stats) Hget).
Qed.

(** Pid 7 after the four connections of the scenario. *)
Lemma process_stats_bounded_witness :
  ∃ stats,
    Py.get 7 (process_stats
                (ingest_all (init 3 5 (Some ThreatDetector.init) 0)
                   Scenario.four_ingests)) = Some stats ∧
    connection_count stats = 4 ∧
    Z.of_nat (size (unique_destinations stats)) ≤ connection_count stats ∧
    suspicious_count stats ≤ connection_count stats.
Proof.
  eexists. split; [vm_compute; reflexivity|]. split; [reflexivity|].
  refine (process_stats_bounded 3 5 (Some ThreatDetector.init) 0
            Scenario.four_ingests 7 _ _).
  vm_compute. reflexivity.
Defined.

(** ** C9: rule 2 is monotone *)

(** C9.  With the clock and the event fixed, an analyzer whose history for
    the pid holds the connections of another one and more gives at least
    the same rule-2 contribution. *)
Theorem connection_frequency_monotone s1 s2 env e :
  ThreatDetector.history s1 (pid (raw e))
    `sublist_of` ThreatDetector.history s2 (pid (raw e)) →
  ThreatDetector._check_connection_frequency s1 env e
    ≤ ThreatDetector._check_connection_frequency s2 env e.
Proof.
  intros Hsub. unfold ThreatDetector._check_connection_frequency.
  apply frequency_score_sublist. unfold ThreatDetector.recent.
  by apply filter_sublist.
Qed.

(** A fresh analyzer against one that has seen twelve connections of the
    pid: the contribution goes from 0 to 5. *)
Lemma connection_frequency_monotone_witness :
  let e := enrich_connection_event NoSuchProcess
             (Scenario.connect 1000000000 7 Scenario.host_a 443) in
  ThreatDetector._check_connection_frequency ThreatDetector.init
    (Scenario.weekday_noon 1) e = 0 ∧
  ThreatDetector._check_connection_frequency Scenario.busy_detector
    (Scenario.weekday_noon 1) e = 5 ∧
  ThreatDetector._check_connection_frequency ThreatDetector.init
    (Scenario.weekday_noon 1) e
  ≤ ThreatDetector._check_connection_frequency Scenario.busy_detector
      (Scenario.weekday_noon 1) e.
Proof.
  cbv zeta. split; [vm_compute; reflexivity|].
  split; [vm_compute; reflexivity|].
  refine (connection_frequency_monotone ThreatDetector.init
            Scenario.busy_detector (Scenario.weekday_noon 1) _ _).
  vm_compute. apply sublist_nil_l.
Defined.

(** The contribution of rule 2 by the number of recent connections and the
    largest number of them that share a destination. *)
Lemma frequency_score_thresholds l :
  let n := Z.of_nat (length l) in
  let burst :=
    if (3 <=? n) && (20 <? ThreatDetector.max_value (ThreatDetector.dst_counts l))
    then 15 else 0 in
  ThreatDetector.frequency_score l =
  (if 100 <? n then 25 else if 50 <? n then 15 else if 20 <? n then 10
   else if 10 <? n then 5 else 0) + burst.
Proof.
  cbv zeta. unfold ThreatDetector.frequency_score.
  destruct (3 <=? _); cbn [andb]; [|lia].
  destruct (20 <? ThreatDetector.max_value _); lia.
Qed.

(** The history of a pid is a [deque(maxlen=100)]: inside
    [analyze_connection] rule 2 sees at most 100 connections. *)
Lemma tracked_history_capped s env e p :
  (length (ThreatDetector.history (ThreatDetector.track s env e) p)
   ≤ Nat.max 100 (length (ThreatDetector.history s p)))%nat.
Proof.
  unfold ThreatDetector.history, ThreatDetector.track. cbn.
  destruct (decide (pid (raw e) = p)) as [->|Hne].
  - rewrite lookup_insert_eq. cbn. unfold Py.deque_append.
    rewrite length_drop, length_app. cbn. lia.
  - rewrite lookup_insert_ne by done. lia.
Qed.

(** ** C10: a kill request without a pid *)




(** The other pids of a request reach the operating system: pid 4242 is
    looked up and terminated. *)
Example kill_with_pid_terminates :
  WebSocketHandler.k_os_calls
    (WebSocketHandler.handle_kill_process WebSocketHandler.init
       Scenario.kill_env "client-1" 1%nat
       [ ("type", WebSocketHandler.JString "kill_process");
         ("data", WebSocketHandler.JObject
                    [ ("pid", WebSocketHandler.JInt 4242) ]) ])
  = [ WebSocketHandler.CallProcess 4242; WebSocketHandler.CallChildren 4242;
      WebSocketHandler.CallWaitProcs []; WebSocketHandler.CallTerminate 4242;
      WebSocketHandler.CallWait 4242 ].
Proof. vm_compute. reflexivity. Qed.

End Claims.

(** * Further properties of the code *)

(** ** The analyzer over a session *)

Section DetectorRuns.
Import ThreatDetector.

(** Comparing a non-negative float with an integer bound before or after
    [int()] gives the same answer. *)
Lemma int_threshold (n : Z) (x : Q) :
  (0 <= x)%Q → Qle_bool (inject_Z n) x = (n <=? Py.int x).
Proof.
  intros Hx. destruct x as [a d]. unfold Py.int. cbn [Qnum Qden].
  assert (0 ≤ a) as Ha by (unfold Qle in Hx; cbn in Hx; lia).
  rewrite Z.quot_div_nonneg by lia.
  destruct (Z.leb_spec n (a / Z.pos d)) as [H|H].
  - apply Qle_bool_iff. unfold Qle. cbn.
    pose proof (Z.mul_div_le a (Z.pos d) ltac:(lia)). nia.
  - apply not_true_is_false. intros Hle. apply Qle_bool_iff in Hle.
    unfold Qle in Hle. cbn in Hle.
    assert (n ≤ a / Z.pos d); [|lia].
    apply Z.div_le_lower_bound; lia.
Qed.

Lemma first_time_process_state s e :
  let r := _check_first_time_process s e in
  ip_frequency r.2 = ip_frequency s ∧
  process_connection_history r.2 = process_connection_history s ∧
  process_first_connection r.2
    = {[ pid (raw e) ]} ∪ process_first_connection s ∧
  total_analyzed r.2 = total_analyzed s ∧
  suspicious_detected r.2 = suspicious_detected s ∧
  connection_features r.2 = connection_features s.
Proof.
  unfold _check_first_time_process. cbv zeta.
  destruct (bool_decide_reflect
              (pid (raw e) ∈ process_first_connection s)) as [Hin|Hout].
  - cbn. repeat split. symmetry. apply subseteq_union_1_L.
    by apply singleton_subseteq_l.
  - by destruct (bool_decide _).
Qed.

Lemma ml_anomaly_detection_state s env e :
  let r := _ml_anomaly_detection s env e in
  ip_frequency r.2 = ip_frequency s ∧
  process_connection_history r.2 = process_connection_history s ∧
  process_first_connection r.2 = process_first_connection s ∧
  total_analyzed r.2 = total_analyzed s ∧
  suspicious_detected r.2 = suspicious_detected s.
Proof.
  unfold _ml_anomaly_detection. cbv zeta.
  destruct (_ <? 100); [done|]. by destruct (Py.Qltb _ _).
Qed.

(** The state after one analysis, field by field. *)
Lemma analyze_connection_state s env e :
  let r := analyze_connection s env e in
  let s1 := track s env e in
  ip_frequency r.2 = ip_frequency s1 ∧
  process_connection_history r.2 = process_connection_history s1 ∧
  process_first_connection r.2
    = {[ pid (raw e) ]} ∪ process_first_connection s ∧
  total_analyzed r.2 = total_analyzed s + 1 ∧
  suspicious_detected r.2
    = suspicious_detected s + (if 50 <=? r.1 then 1 else 0) ∧
  connection_features r.2
    = connection_features
        (_ml_anomaly_detection (_check_first_time_process s1 e).2 env e).2.
Proof.
  cbv zeta. unfold analyze_connection.
  destruct (first_time_process_state (track s env e) e)
    as (Hf1 & Hf2 & Hf3 & Hf4 & Hf5 & _).
  destruct (_check_first_time_process (track s env e) e) as [ft s2].
  cbn [fst snd] in *.
  destruct (ml_anomaly_detection_state s2 env e)
    as (Hm1 & Hm2 & Hm3 & Hm4 & Hm5).
  destruct (_ml_anomaly_detection s2 env e) as [ml s3]. cbn [fst snd] in *.
  match goal with
  | |- context [Py.min 100 (Py.max 0 ?x)] => set (raw_score := x)
  end.
  rewrite (int_threshold 50) by apply min_max0_range.
  destruct (50 <=? Py.int (Py.min 100 (Py.max 0 raw_score)));
    cbn; rewrite ?Hm1, ?Hm2, ?Hm3, ?Hm4, ?Hm5, ?Hf1, ?Hf2, ?Hf3, ?Hf4, ?Hf5;
    cbn; repeat split; lia.
Qed.

Lemma length_slice_last_pos {A} (limit : Z) (l : list A) :
  0 < limit →
  Z.of_nat (length (Py.slice_last limit l))
    = Z.min limit (Z.of_nat (length l)).
Proof.
  intros Hl. unfold Py.slice_last. rewrite length_drop.
  destruct (Z.ltb_spec (- limit) 0); lia.
Qed.

Lemma detector_ok_init : detector_ok init.
Proof.
  split; cbn; try lia.
  - intros p h. by rewrite lookup_empty.
  - intros d n. by rewrite lookup_empty.
  - intros p Hp. by apply not_elem_of_empty in Hp.
Qed.

(** One analysis keeps the analyzer well-formed. *)
Lemma analyze_connection_ok s env e :
  detector_ok s → detector_ok (analyze_connection s env e).2.
Proof.
  intros [Hh Hc Hf Hq Hp].
  destruct (analyze_connection_state s env e)
    as (Hip & Hhist & Hfirst & Htot & Hsus & Hfeat).
  cbv zeta in *. split.
  - intros p h. rewrite Hhist, Hfirst. unfold track. cbn.
    destruct (decide (pid (raw e) = p)) as [->|Hne].
    + rewrite lookup_insert_eq. intros [= <-].
      split; [|apply elem_of_union_l; by apply elem_of_singleton].
      unfold Py.deque_append. rewrite length_drop, length_app. cbn.
      unfold history. destruct (process_connection_history s !! p) as [h|] eqn:E.
      * destruct (Hh p h E) as [? _]. cbn. lia.
      * cbn. lia.
    + rewrite lookup_insert_ne by done. intros Hl.
      destruct (Hh p h Hl) as [? ?]. split; [done|by apply elem_of_union_r].
  - rewrite Htot, Hsus. destruct (50 <=? _); lia.
  - rewrite Htot, Hfeat.
    destruct (first_time_process_state (track s env e) e)
      as (_ & _ & _ & _ & _ & Hff).
    cbv zeta in Hff. unfold _ml_anomaly_detection. cbv zeta. rewrite Hff.
    change (connection_features (track s env e))
      with (connection_features s).
    destruct (Z.ltb_spec (Z.of_nat (length (connection_features s))) 100).
    + cbn [snd set_connection_features connection_features].
      rewrite length_app. cbn [length]. lia.
    + destruct (Py.Qltb _ _);
        cbn [snd set_connection_features connection_features];
        [|rewrite Hff; change (connection_features (track s env e))
                         with (connection_features s); lia].
      destruct (Z.ltb_spec 10000
                  (Z.of_nat (length (connection_features s
                                       ++ [_extract_features env e])))).
      * rewrite length_slice_last_pos by lia.
        rewrite length_app in *. cbn [length] in *. lia.
      * rewrite length_app in *. cbn [length] in *. lia.
  - intros d n. rewrite Hip, Htot. unfold track. cbn.
    destruct (decide (get_dst_ip e = d)) as [<-|Hne].
    + rewrite lookup_insert_eq. intros [= <-].
      destruct (ip_frequency s !! get_dst_ip e) as [m|] eqn:E; cbn.
      * specialize (Hq _ _ E). lia.
      * lia.
    + rewrite lookup_insert_ne by done. intros Hl.
      specialize (Hq _ _ Hl). lia.
  - intros p. rewrite Hhist, Hfirst. unfold track. cbn.
    destruct (decide (pid (raw e) = p)) as [->|Hne].
    + intros _. rewrite lookup_insert_eq. by eexists.
    + rewrite lookup_insert_ne by done. intros Hin. apply Hp.
      apply elem_of_union in Hin as [Hin|Hin]; [|done].
      by apply elem_of_singleton in Hin.
Qed.

Lemma analyze_all_snoc s steps step :
  analyze_all s (steps ++ [step])
  = (analyze_connection (analyze_all s steps) step.1 step.2).2.
Proof. unfold analyze_all. by rewrite foldl_snoc. Qed.

Lemma analyze_all_ok steps : detector_ok (analyze_all init steps).
Proof.
  induction steps as [|step steps IH] using rev_ind.
  - apply detector_ok_init.
  - rewrite analyze_all_snoc. by apply analyze_connection_ok.
Qed.

Lemma analyze_all_total steps :
  total_analyzed (analyze_all init steps) = Z.of_nat (length steps).
Proof.
  induction steps as [|step steps IH] using rev_ind; [done|].
  rewrite analyze_all_snoc, length_app. cbn.
  destruct (analyze_connection_state (analyze_all init steps) step.1 step.2)
    as (_ & _ & _ & -> & _). lia.
Qed.

(** The pids with a history are the pids of the analyzed events. *)
Lemma analyze_all_history_dom steps p :
  is_Some (process_connection_history (analyze_all init steps) !! p)
  ↔ p ∈ analyzed_pids steps.
Proof.
  unfold analyzed_pids.
  induction steps as [|step steps IH] using rev_ind.
  - cbn. rewrite lookup_empty. split; [by intros [? ?]|].
    intros H. by apply elem_of_nil in H.
  - rewrite analyze_all_snoc, fmap_app, elem_of_app. cbn.
    rewrite list_elem_of_singleton.
    destruct (analyze_connection_state (analyze_all init steps) step.1 step.2)
      as (_ & -> & _).
    unfold track. cbn.
    destruct (decide (pid (raw step.2) = p)) as [->|Hne].
    + rewrite lookup_insert_eq. split; [by right|by eexists].
    + rewrite lookup_insert_ne by done. rewrite IH. split; [by left|].
      intros [?|?]; [done|congruence].
Qed.

End DetectorRuns.

Section DetectorProperties.
Import ThreatDetector.

Lemma analyze_all_history_length steps p :
  (length (history (analyze_all init steps) p) ≤ 100)%nat.
Proof.
  unfold history.
  destruct (process_connection_history (analyze_all init steps) !! p)
    as [h|] eqn:E; cbn; [|lia].
  by destruct (ok_history _ (analyze_all_ok steps) p h E) as [[_ ?] _].
Qed.

(** X1.  After any run of analyses from a fresh analyzer, [total_analyzed]
    is the number of analyses, [suspicious_detected] lies between 0 and
    it, the sample of the anomaly detector holds at most 10000 vectors, and
    the history of every pid holds at most 100 connections. *)
Theorem analyzer_session_bounds steps p :
  let s := analyze_all init steps in
  total_analyzed s = Z.of_nat (length steps) ∧
  0 ≤ suspicious_detected s ≤ total_analyzed s ∧
  Z.of_nat (length (connection_features s)) ≤ 10000 ∧
  (length (history s p) ≤ 100)%nat.
Proof.
  cbv zeta. split; [apply analyze_all_total|].
  split; [apply (ok_counters _ (analyze_all_ok steps))|].
  split; [|apply analyze_all_history_length].
  pose proof (ok_features _ (analyze_all_ok steps)). lia.
Qed.

(** X2.  In a session, the first-connection rule contributes exactly when
    no earlier analyzed event had the pid: 30 for a system process name, 15
    otherwise, and 0 for every later event of the pid. *)
Theorem first_connection_fires_once steps env e :
  let s := analyze_all init steps in
  (_check_first_time_process (track s env e) e).1 =
  if bool_decide (pid (raw e) ∈ analyzed_pids steps) then 0
  else if bool_decide (Py.lower (get_process_name e) ∈ system_processes)
       then 30 else 15.
Proof.
  cbv zeta. unfold _check_first_time_process. cbv zeta.
  change (process_first_connection (track (analyze_all init steps) env e))
    with (process_first_connection (analyze_all init steps)).
  pose proof (analyze_all_ok steps) as Hok.
  pose proof (analyze_all_history_dom steps (pid (raw e))) as Hdom.
  destruct (bool_decide_reflect (pid (raw e) ∈ analyzed_pids steps))
    as [Hin|Hout].
  - apply Hdom in Hin as [h Hh].
    destruct (ok_history _ Hok _ _ Hh) as [_ Hfirst].
    by rewrite bool_decide_eq_true_2.
  - rewrite bool_decide_eq_false_2.
    + by destruct (bool_decide _).
    + intros Hfirst. apply Hout, Hdom. by apply (ok_first _ Hok).
Qed.

(** X3.  In a session, rule 2 never contributes more than 30: the history
    of a pid is capped at 100 connections, so the branch for more than 100
    connections a minute is never taken. *)
Theorem frequency_capped_in_session steps env e :
  _check_connection_frequency (track (analyze_all init steps) env e) env e
    ≤ 30.
Proof.
  unfold _check_connection_frequency.
  set (l := recent _ _ _).
  assert (length l ≤ 100)%nat as Hl.
  { subst l. unfold recent. etrans; [apply length_filter|].
    etrans; [apply tracked_history_capped|].
    pose proof (analyze_all_history_length steps (pid (raw e))). lia. }
  rewrite frequency_score_thresholds. cbv zeta.
  destruct (Z.ltb_spec 100 (Z.of_nat (length l))); [lia|].
  repeat match goal with
         | |- context [if ?b then _ else _] => destruct b
         end; lia.
Qed.

Lemma Qdiv_inject_lt (c t p : Z) (q : positive) :
  0 < t →
  Py.Qltb (inject_Z c / inject_Z t) (p # q) = true ↔ c * Z.pos q < p * t.
Proof.
  intros Ht. rewrite Qltb_lt. destruct t as [|t|t]; try lia.
  unfold Qlt, Qdiv, Qinv, Qmult, inject_Z. cbn. lia.
Qed.

Lemma int_min_100_inject (n : Z) :
  0 ≤ n → Py.int (Py.min 100 (Py.max (inject_Z n) (0 * 50))) = Z.min 100 n.
Proof.
  intros Hn. unfold Py.max.
  destruct (Py.Qltb (inject_Z n) (0 * 50)) eqn:E.
  - apply Qltb_lt in E. unfold Qlt in E. cbn in E. lia.
  - unfold Py.min. destruct (Py.Qltb (inject_Z n) 100) eqn:E1.
    + apply Qltb_lt in E1. unfold Qlt in E1. cbn in E1.
      unfold Py.int, inject_Z. cbn [Qnum Qden]. rewrite Z.quot_1_r. lia.
    + apply Qltb_ge in E1. unfold Qle in E1. cbn in E1.
      change (Py.int 100) with 100. lia.
Qed.

(** X4.  During the first 100 analyses of a session neither the rarity
    rule nor the anomaly detector contributes: the score is the sum of the
    rules, capped at 100. *)
Theorem warm_up_scores_rules_only steps env e :
  (length steps < 100)%nat →
  let s := analyze_all init steps in
  _check_destination_rarity (track s env e) e = 0 ∧
  anomaly_score s env e = 0%Q ∧
  (analyze_connection s env e).1
    = Z.min 100 (Py.sum (rule_contributions s env e)).
Proof.
  intros Hlen. cbv zeta.
  pose proof (analyze_all_ok steps) as Hok.
  pose proof (analyze_all_total steps) as Htot.
  assert (anomaly_score (analyze_all init steps) env e = 0%Q) as Ha.
  { unfold anomaly_score.
    destruct (first_time_process_state
                (track (analyze_all init steps) env e) e)
      as (_ & _ & _ & _ & _ & Hff).
    cbv zeta in Hff. unfold _ml_anomaly_detection. cbv zeta. rewrite Hff.
    change (connection_features (track (analyze_all init steps) env e))
      with (connection_features (analyze_all init steps)).
    pose proof (ok_features _ Hok).
    destruct (Z.ltb_spec
                (Z.of_nat (length (connection_features
                                     (analyze_all init steps)))) 100);
      [done|lia]. }
  split; [|split; [done|]].
  - unfold _check_destination_rarity. cbv zeta.
    destruct (String.eqb _ _); [done|]. destruct (bool_decide _); [done|].
    destruct (_ <? 10) eqn:E10; [done|]. apply Z.ltb_ge in E10.
    cbn [total_analyzed ip_frequency track] in *.
    rewrite lookup_insert_eq. cbn [default from_option id].
    set (c := default 0 _ + 1).
    assert (1 ≤ c) as Hc.
    { subst c.
      destruct (ip_frequency (analyze_all init steps) !! get_dst_ip e)
        as [m|] eqn:E; cbn; [|lia].
      pose proof (ok_frequency _ Hok _ _ E). lia. }
    assert (∀ p q, p * 100 ≤ Z.pos q →
              Py.Qltb (inject_Z c
                       / inject_Z (total_analyzed (analyze_all init steps)
                                   + 1)) (p # q) = false) as Hno.
    { intros p q Hpq. apply not_true_is_false. intros Hlt.
      apply Qdiv_inject_lt in Hlt; [|lia]. nia. }
    rewrite !Hno by lia. done.
  - rewrite analyze_connection_formula, Ha.
    apply int_min_100_inject, rule_contributions_nonneg.
Qed.

(** The first analysis of a session. *)
Lemma warm_up_scores_rules_only_witness :
  (length (@nil (Env * EnrichedEvent)) < 100)%nat ∧
  (analyze_connection init (Scenario.weekday_noon 1)
     (ConnectionHandler.enrich_connection_event Scenario.bash_in_tmp
        Scenario.shell_ingest.2)).1 = 100.
Proof.
  assert (length (@nil (Env * EnrichedEvent)) < 100)%nat as H by (cbn; lia).
  split; [exact H|].
  exact (eq_trans
           (proj2 (proj2 (warm_up_scores_rules_only [] _ _ H))) eq_refl).
Defined.

(** X6.  The anomaly score lies in [[0,1]] whenever the mean of the
    z-scores that numpy computes is not negative. *)
Theorem anomaly_score_unit_interval s env e :
  (0 <= mean_z_score env)%Q →
  (0 <= anomaly_score s env e)%Q ∧ (anomaly_score s env e <= 1)%Q.
Proof.
  intros Hz. unfold anomaly_score, _ml_anomaly_detection. cbv zeta.
  destruct (_ <? 100); cbn [fst]; [split; [apply Qle_refl|discriminate]|].
  assert ((0 <= Py.min 1 (mean_z_score env / 3))%Q ∧
          (Py.min 1 (mean_z_score env / 3) <= 1)%Q) as H.
  { unfold Py.min. destruct (Py.Qltb _ 1) eqn:E.
    - apply Qltb_lt in E. split; [|lra].
      apply Qle_shift_div_l; lra.
    - split; lra. }
  by destruct (Py.Qltb _ anomaly_threshold).
Qed.

Lemma anomaly_score_unit_interval_witness :
  (0 <= mean_z_score (Scenario.weekday_noon 1))%Q ∧
  (anomaly_score Scenario.busy_detector (Scenario.weekday_noon 1)
     (ConnectionHandler.enrich_connection_event NoSuchProcess
        Scenario.repeated) <= 1)%Q.
Proof.
  assert (0 <= mean_z_score (Scenario.weekday_noon 1))%Q as H
    by discriminate.
  split; [exact H|].
  exact (proj2 (anomaly_score_unit_interval Scenario.busy_detector
                  (Scenario.weekday_noon 1) _ H)).
Defined.

(** X7.  A connection to a port of the analyzer's safe list gets nothing
    from the port rule and no weekend penalty from the timing rule. *)
Theorem safe_port_no_penalty env e :
  dport (raw e) ∈ safe_ports →
  _check_suspicious_ports e = 0 ∧ _check_unusual_timing env e ≤ 10.
Proof.
  intros Hsafe.
  assert (dport (raw e) ∉ suspicious_ports) as Hsus.
  { intros Hs. revert Hsafe Hs. unfold safe_ports, suspicious_ports.
    rewrite !elem_of_union, !elem_of_singleton. lia. }
  unfold _check_suspicious_ports, _check_unusual_timing. cbv zeta.
  rewrite (bool_decide_eq_true_2 _ Hsafe), (bool_decide_eq_false_2 _ Hsus).
  rewrite andb_false_r. cbn [negb andb]. split; [done|].
  destruct (_ && _), (5 <=? _); lia.
Qed.

Lemma safe_port_no_penalty_witness :
  dport (raw (ConnectionHandler.enrich_connection_event NoSuchProcess
                Scenario.git_fetch)) ∈ safe_ports ∧
  _check_suspicious_ports
    (ConnectionHandler.enrich_connection_event NoSuchProcess
       Scenario.git_fetch) = 0.
Proof.
  assert (dport (raw (ConnectionHandler.enrich_connection_event
                        NoSuchProcess Scenario.git_fetch)) ∈ safe_ports)
    as H by (apply (bool_decide_unpack _); vm_compute; exact I).
  split; [exact H|].
  exact (proj1 (safe_port_no_penalty (Scenario.weekday_noon 1) _ H)).
Defined.

Lemma sequential_run_snoc prev count ports a b :
  sequential_run prev count (ports ++ [a; b]) =
  if b =? a + 1 then sequential_run prev count (ports ++ [a]) + 1 else 1.
Proof.
  revert prev count. induction ports as [|p ports IH]; intros prev count.
  - done.
  - cbn. apply IH.
Qed.

(** X8.  The port-scan check counts the run of consecutive ports that ends
    at the largest port: appending a port that does not continue the run,
    a repeated port included, resets the count to 1, and appending the next
    port adds 1. *)
Theorem port_scan_counts_trailing_run ports a b :
  sequential_count (ports ++ [a; b]) =
  if b =? a + 1 then sequential_count (ports ++ [a]) + 1 else 1.
Proof.
  destruct ports as [|p ports].
  - done.
  - cbn. apply sequential_run_snoc.
Qed.

End DetectorProperties.

Section DetectorReports.
Import ThreatDetector.

Lemma process_connection_event_detector h env event :
  ConnectionHandler.threat_detector
    (ConnectionHandler.process_connection_event h env event).1 =
  match ConnectionHandler.threat_detector h with
  | Some d =>
      Some (analyze_connection d (ConnectionHandler.analysis env)
              (ConnectionHandler.enrich_connection_event
                 (ConnectionHandler.process_lookup env) event)).2
  | None => None
  end.
Proof.
  unfold ConnectionHandler.process_connection_event.
  set (e := ConnectionHandler.enrich_connection_event _ event).
  set (h1 := ConnectionHandler.set_connection_queue _ _).
  destruct (update_statistics_frame h1 env e) as (_ & _ & Htd & _).
  revert Htd. generalize (ConnectionHandler.update_statistics h1 env e).
  intros h2 Htd. subst h1. cbn in Htd. rewrite Htd.
  destruct (ConnectionHandler.threat_detector h) as [d|]; cbn.
  - destruct (analyze_connection d (ConnectionHandler.analysis env) e)
      as [score d']. cbn.
    by destruct (Py.mem _ _).
  - rewrite <- Htd. by destruct (Py.mem _ _).
Qed.

(** X5.  The analyzer and the handler agree on what is suspicious: one
    ingest adds 1 to [total_analyzed], and adds 1 to [suspicious_detected]
    exactly when the event leaves the handler with [is_suspicious] set,
    although the analyzer compares the score before [int()] and the handler
    after. *)
Theorem suspicious_counter_matches_flag h env event d :
  ConnectionHandler.threat_detector h = Some d →
  let r := ConnectionHandler.process_connection_event h env event in
  ∃ d', ConnectionHandler.threat_detector r.1 = Some d' ∧
        total_analyzed d' = total_analyzed d + 1 ∧
        suspicious_detected d' =
          suspicious_detected d
          + (if default false (is_suspicious r.2) then 1 else 0).
Proof.
  intros Hd. cbv zeta. rewrite process_connection_event_detector.
  rewrite process_connection_event_event. rewrite Hd. cbv zeta.
  eexists. split; [reflexivity|].
  destruct (analyze_connection_state d (ConnectionHandler.analysis env)
              (ConnectionHandler.enrich_connection_event
                 (ConnectionHandler.process_lookup env) event))
    as (_ & _ & _ & Htot & Hsus & _).
  cbv zeta in Htot, Hsus. split; [exact Htot|]. rewrite Hsus. done.
Qed.

Lemma suspicious_counter_matches_flag_witness :
  ConnectionHandler.threat_detector Scenario.fresh_handler = Some init ∧
  ∃ d', ConnectionHandler.threat_detector
          (ConnectionHandler.process_connection_event Scenario.fresh_handler
             Scenario.shell_ingest.1 Scenario.shell_ingest.2).1 = Some d' ∧
        total_analyzed d' = total_analyzed init + 1 ∧
        suspicious_detected d' =
          suspicious_detected init
          + (if default false
                  (is_suspicious
                     (ConnectionHandler.process_connection_event
                        Scenario.fresh_handler Scenario.shell_ingest.1
                        Scenario.shell_ingest.2).2)
             then 1 else 0).
Proof.
  split; [reflexivity|].
  exact (suspicious_counter_matches_flag Scenario.fresh_handler
           Scenario.shell_ingest.1 Scenario.shell_ingest.2 init eq_refl).
Defined.

Lemma count_distinct_nonneg `{Countable A} (l : list A) :
  0 ≤ Py.count_distinct l.
Proof. unfold Py.count_distinct. lia. Qed.

Lemma max_1_positive (x : Q) : (1 <= Py.max 1 x)%Q.
Proof. apply max_lower. Qed.

Lemma threat_report_spec now first connections :
  let r := threat_report now first connections in
  0 ≤ ta_risk_score r ≤ 100 ∧
  ta_risk_level r = risk_band (ta_risk_score r) ∧
  ta_total_connections r = Z.of_nat (length connections) ∧
  (0 <= ta_connection_rate r)%Q ∧
  (ta_connection_rate r <= inject_Z (Z.of_nat (length connections)))%Q.
Proof.
  cbv zeta. unfold threat_report. cbv zeta.
  cbn [ta_risk_score ta_risk_level ta_total_connections ta_connection_rate].
  set (den := Py.max 1 _).
  assert (1 <= den)%Q as Hden by apply max_1_positive.
  set (n := Z.of_nat (length connections)).
  assert (0 <= inject_Z n)%Q as Hn.
  { change 0%Q with (inject_Z 0). rewrite <- Zle_Qle. lia. }
  assert (0 <= inject_Z n / den)%Q as Hrate.
  { apply Qle_shift_div_l; lra. }
  assert (inject_Z n / den <= inject_Z n)%Q as Hrate'.
  { apply Qle_shift_div_r; [lra|]. nra. }
  set (rate := (inject_Z n / den)%Q) in *.
  set (u := Py.count_distinct (c_dst_ip <$> connections)).
  set (v := Py.count_distinct (c_dst_port <$> connections)).
  assert (0 <= inject_Z (u * 2))%Q as Hu.
  { change 0%Q with (inject_Z 0). rewrite <- Zle_Qle.
    pose proof (count_distinct_nonneg (c_dst_ip <$> connections)).
    subst u. lia. }
  assert (0 <= inject_Z (v * 3))%Q as Hv.
  { change 0%Q with (inject_Z 0). rewrite <- Zle_Qle.
    pose proof (count_distinct_nonneg (c_dst_port <$> connections)).
    subst v. lia. }
  set (x := (rate * (1 # 2) + inject_Z (u * 2) + inject_Z (v * 3))%Q).
  assert (0 <= x)%Q as Hx by (subst x; lra).
  assert ((0 <= Py.min 100 x)%Q ∧ (Py.min 100 x <= 100)%Q) as [Hlo Hhi].
  { unfold Py.min. destruct (Py.Qltb x 100) eqn:E.
    - apply Qltb_lt in E. lra.
    - lra. }
  split; [by apply int_bounds|]. split; [|done].
  unfold risk_band.
  rewrite <- !(int_threshold _ (Py.min 100 x)) by done. done.
Qed.

(** X9.  The per-process report of a session: a pid without analyzed
    events is reported as not found, "No connections found" is never
    answered, and a report has a risk score in [[0,100]], the risk band of
    that integer score, and between 1 and 100 connections. *)
Theorem process_threat_report_bands steps now p :
  match get_process_threat_analysis (analyze_all init steps) now p with
  | ProcessNotFound => p ∉ analyzed_pids steps
  | NoConnectionsFound => False
  | Report r =>
      p ∈ analyzed_pids steps ∧
      0 ≤ ta_risk_score r ≤ 100 ∧
      ta_risk_level r = risk_band (ta_risk_score r) ∧
      1 ≤ ta_total_connections r ≤ 100
  end.
Proof.
  unfold get_process_threat_analysis.
  pose proof (analyze_all_history_dom steps p) as Hdom.
  pose proof (ok_history _ (analyze_all_ok steps) p) as Hh.
  destruct (process_connection_history (analyze_all init steps) !! p)
    as [[|first rest]|] eqn:E.
  - destruct (Hh [] eq_refl) as [[Hlen _] _]. cbn in Hlen. lia.
  - destruct (Hh _ eq_refl) as [[Hlo Hhi] _].
    destruct (threat_report_spec now first (first :: rest))
      as (Hs & Hb & Ht & _).
    cbv zeta in *. split; [apply Hdom; by eexists|].
    split; [done|]. split; [done|]. rewrite Ht. lia.
  - intros Hin. apply Hdom in Hin as [? ?]. done.
Qed.

(** X10.  The statistics of the analyzer after a session: the suspicious
    percentage is defined for an empty session and lies in [[0,100]], and
    the number of training samples is at most the number of analyses and
    at most 10000. *)
Theorem detector_statistics_bounds steps :
  let st := get_statistics (analyze_all init steps) in
  st_total_analyzed st = Z.of_nat (length steps) ∧
  (0 <= st_suspicious_percentage st)%Q ∧
  (st_suspicious_percentage st <= 100)%Q ∧
  st_ml_training_samples st ≤ Z.min (Z.of_nat (length steps)) 10000.
Proof.
  cbv zeta. unfold get_statistics.
  cbn [st_total_analyzed st_suspicious_percentage st_ml_training_samples].
  pose proof (analyze_all_ok steps) as Hok.
  pose proof (ok_counters _ Hok) as Hc. pose proof (ok_features _ Hok) as Hf.
  rewrite analyze_all_total in *. split; [done|].
  split; [|split; [|lia]].
  - destruct (0 <? _) eqn:E; [|apply Qle_refl]. apply Z.ltb_lt in E.
    apply Qmult_le_0_compat; [|discriminate].
    apply Qle_shift_div_l.
    + change 0%Q with (inject_Z 0). rewrite <- Zlt_Qlt. lia.
    + rewrite Qmult_0_l. change 0%Q with (inject_Z 0).
      rewrite <- Zle_Qle. lia.
  - destruct (0 <? _) eqn:E; [|discriminate]. apply Z.ltb_lt in E.
    assert (inject_Z (suspicious_detected (analyze_all init steps))
            / inject_Z (Z.of_nat (length steps)) <= 1)%Q as H1.
    { apply Qle_shift_div_r.
      - change 0%Q with (inject_Z 0). rewrite <- Zlt_Qlt. lia.
      - rewrite Qmult_1_l. rewrite <- Zle_Qle. lia. }
    nra.
Qed.

End DetectorReports.

(** ** The store *)

Section StoreProperties.
Import ConnectionHandler.

(** X11.  [is_private_ip] by the octets of the address: the first octet is
    10 or 127, or the first two are 172.16 to 172.31 or 192.168; an
    integer outside the 32-bit range is never private. *)
Theorem is_private_ip_octets ip :
  is_private_ip ip =
  let o1 := ip / 2 ^ 24 in
  let o2 := (ip / 2 ^ 16) mod 256 in
  (o1 =? 10) || (o1 =? 127) ||
  ((o1 =? 172) && (16 <=? o2) && (o2 <=? 31)) ||
  ((o1 =? 192) && (o2 =? 168)).
Proof.
  cbv zeta. unfold is_private_ip, private_ranges, inet_aton.
  cbn [existsb fst snd].
  apply eq_true_iff_eq.
  rewrite !orb_true_iff, !andb_true_iff, !Z.leb_le, !Z.eqb_eq.
  change (2 ^ 24) with 16777216. change (2 ^ 16) with 65536.
  Z.to_euclidean_division_equations. lia.
Qed.

Section DictSums.
Context {K V : Type} `{EqDecision K} (f : V → Z).

(** Writing a key changes the sum over the values by the difference of the
    new and the old value. *)
Lemma sum_set (k : K) (v : V) (d : Py.dict K V) :
  Py.sum (f <$> Py.values (Py.set k v d)) =
  Py.sum (f <$> Py.values d) + f v - default 0 (f <$> Py.get k d).
Proof.
  unfold Py.values, Py.sum. induction d as [|[k' v'] d IH]; cbn.
  - lia.
  - destruct (decide (k = k')) as [->|Hne]; cbn; lia.
Qed.
End DictSums.

Lemma get_set_ne {K V} `{EqDecision K} (k k' : K) (v : V) d :
  k ≠ k' → Py.get k' (Py.set k v d) = Py.get k' d.
Proof.
  intros Hne. induction d as [|[k0 v0] d IH]; cbn.
  - by rewrite decide_False by congruence.
  - destruct (decide (k = k0)) as [->|Hne0]; cbn.
    + by rewrite !decide_False by congruence.
    + destruct (decide (k' = k0)); [done|apply IH].
Qed.

Lemma get_filter {K V} `{EqDecision K} (P : K * V → Prop)
    `{∀ x, Decision (P x)} (k : K) (d : Py.dict K V) :
  NoDup (Py.keys d) →
  Py.get k (filter P d) =
  match Py.get k d with
  | Some v => if decide (P (k, v)) then Some v else None
  | None => None
  end.
Proof.
  unfold Py.keys. induction d as [|[k0 v0] d IH]; [done|].
  rewrite fmap_cons. intros Hd. apply NoDup_cons in Hd as [Hk0 Hd].
  rewrite filter_cons. cbn [Py.get].
  destruct (decide (k = k0)) as [->|Hne].
  - destruct (decide (P (k0, v0))); cbn [Py.get].
    + by rewrite decide_True.
    + rewrite (IH Hd).
      destruct (Py.get k0 d) as [v|] eqn:E; [|done].
      apply get_elem_of in E. exfalso. apply Hk0.
      apply list_elem_of_fmap. by exists (k0, v).
  - destruct (decide (P (k0, v0))); cbn [Py.get].
    + rewrite decide_False by done. by apply IH.
    + by apply IH.
Qed.

Lemma update_statistics_frequency h env e :
  ip_frequency (update_statistics h env e) =
  Py.set (daddr (raw e))
    (default 0 (Py.get (daddr (raw e)) (ip_frequency h)) + 1)
    (ip_frequency h) ∧
  connection_rates (update_statistics h env e) =
  <[pid (raw e) :=
      filter (λ t, Qle_bool (now_update env - t) 60 = true)
        (default [] (connection_rates h !! pid (raw e))
         ++ [now_update env])]> (connection_rates h).
Proof.
  unfold update_statistics. cbn.
  by destruct (total_connections h mod 100 =? 0).
Qed.

Lemma process_connection_event_frequency h env event :
  ip_frequency (process_connection_event h env event).1 =
  Py.set (daddr event)
    (default 0 (Py.get (daddr event) (ip_frequency h)) + 1)
    (ip_frequency h) ∧
  connection_rates (process_connection_event h env event).1 =
  <[pid event :=
      filter (λ t, Qle_bool (now_update env - t) 60 = true)
        (default [] (connection_rates h !! pid event)
         ++ [now_update env])]> (connection_rates h).
Proof.
  assert (raw (enrich_connection_event (process_lookup env) event) = event)
    as Hraw by by destruct (process_lookup env).
  unfold process_connection_event.
  set (e := enrich_connection_event (process_lookup env) event) in *.
  set (h1 := set_connection_queue _ _).
  destruct (update_statistics_frame h1 env e) as (_ & _ & Htd & _).
  destruct (update_statistics_frequency h1 env e) as [Hip Hrates].
  revert Htd Hip Hrates. generalize (update_statistics h1 env e).
  intros h2 Htd Hip Hrates. subst h1. cbn in Htd, Hip, Hrates.
  rewrite Hraw in Hip, Hrates. rewrite Htd.
  destruct (threat_detector h) as [d|]; cbn.
  - destruct (ThreatDetector.analyze_connection d (analysis env) e)
      as [score d']. cbn.
    by destruct (Py.mem _ _).
  - by destruct (Py.mem _ _).
Qed.

(** X12.  After a run of ingests from a new handler, [total_connections],
    the sum of the [connection_count] of all pids and the sum of the
    counts of all destinations each equal the number of ingests. *)
Theorem ingest_counts max ret detector t0 steps :
  let h := ingest_all (init max ret detector t0) steps in
  total_connections h = Z.of_nat (length steps) ∧
  Py.sum (connection_count <$> Py.values (process_stats h))
    = Z.of_nat (length steps) ∧
  Py.sum (id <$> Py.values (ip_frequency h)) = Z.of_nat (length steps).
Proof.
  cbv zeta. induction steps as [|[env event] steps IH] using rev_ind.
  - done.
  - rewrite ingest_all_snoc, length_app. cbn [length].
    set (h := ingest_all (init max ret detector t0) steps) in *.
    destruct IH as (IH1 & IH2 & IH3).
    unfold ingest. cbn [fst snd].
    destruct (process_connection_event_frame h env event)
      as (_ & _ & _ & _ & Htot & Hps & _).
    split; [lia|]. split.
    + rewrite Hps. unfold update_process_stats. cbv zeta.
      rewrite sum_set. cbn [connection_count].
      destruct (Py.get _ (process_stats h)); cbn; lia.
    + destruct (process_connection_event_frequency h env event) as [-> _].
      rewrite sum_set. unfold id at 2.
      destruct (Py.get _ (ip_frequency h)); cbn; lia.
Qed.

(** X13.  The store after one ingest, key by key.  The ingested event is
    stored with its score under its connection id, unless the call ran the
    age sweep and the event is older than the retention period: then the
    store does not hold it at all.  Under every other id the stored event
    is the one that was there, unless the sweep removed it. *)
Theorem ingest_read_after_write max ret detector t0 steps env event id :
  let h := ingest_all (init max ret detector t0) steps in
  let r := process_connection_event h env event in
  let swept (e : EnrichedEvent) :=
    (total_connections h mod 100 =? 0) &&
    expired (retention_minutes h) (now_cleanup env) e in
  Py.get id (connections r.1) =
  if decide (id = conn_id event)
  then (if swept r.2 then None else Some r.2)
  else match Py.get id (connections h) with
       | Some e => if swept e then None else Some e
       | None => None
       end.
Proof.
  cbv zeta. set (h := ingest_all (init max ret detector t0) steps).
  assert (NoDup (Py.keys (connections h))) as Hnd.
  { apply ingest_all_NoDup. cbn. constructor. }
  destruct (process_connection_event_frame h env event)
    as (_ & _ & _ & _ & _ & _ & ->).
  assert (expired (retention_minutes h) (now_cleanup env)
            (process_connection_event h env event).2
          = expired (retention_minutes h) (now_cleanup env)
              (enrich_connection_event (process_lookup env) event)) as ->.
  { rewrite process_connection_event_event. cbv zeta.
    by destruct (threat_detector h). }
  set (e0 := enrich_connection_event (process_lookup env) event).
  set (out := (process_connection_event h env event).2).
  set (stored := Py.set (conn_id event) e0 (connections h)).
  assert (NoDup (Py.keys stored)) as Hs by by apply NoDup_keys_set.
  assert (∀ k, Py.get k stored =
               if decide (k = conn_id event) then Some e0
               else Py.get k (connections h)) as Hstored.
  { intros k. subst stored. destruct (decide (k = conn_id event)) as [->|Hne].
    - apply get_set_eq.
    - by apply get_set_ne. }
  destruct (total_connections h mod 100 =? 0); cbn [andb].
  - set (keep := λ ce : string * EnrichedEvent,
                   expired (retention_minutes h) (now_cleanup env) ce.2
                   = false).
    assert (∀ k, Py.get k (filter keep stored) =
                 match Py.get k stored with
                 | Some v => if expired (retention_minutes h)
                                  (now_cleanup env) v
                             then None else Some v
                 | None => None
                 end) as Hswept.
    { intros k. rewrite get_filter by done.
      destruct (Py.get k stored) as [v|]; [|done]. subst keep. cbn.
      destruct (expired _ _ v); by destruct (decide _). }
    unfold Py.mem. rewrite (Hswept (conn_id event)), (Hstored (conn_id event)).
    rewrite decide_True by done.
    destruct (expired (retention_minutes h) (now_cleanup env) e0) eqn:E.
    + rewrite Hswept, Hstored.
      destruct (decide (id = conn_id event)); [by rewrite E|].
      by destruct (Py.get id (connections h)).
    + destruct (decide (id = conn_id event)) as [->|Hne].
      * apply get_set_eq.
      * rewrite get_set_ne by done. rewrite Hswept, Hstored.
        by rewrite decide_False by done.
  - unfold Py.mem. rewrite (Hstored (conn_id event)).
    rewrite decide_True by done.
    destruct (decide (id = conn_id event)) as [->|Hne].
    + apply get_set_eq.
    + rewrite get_set_ne by done. rewrite Hstored.
      rewrite decide_False by done.
      by destruct (Py.get id (connections h)).
Qed.

End StoreProperties.

Section StoreQueries.
Import ConnectionHandler.

(** X14.  A listing of recent connections is sorted by timestamp, newest
    first; each listed event is stored under an id of the queue; and the
    listing is no longer than the queue. *)
Theorem recent_connections_listing h limit :
  let l := get_recent_connections h limit in
  StronglySorted (Py.descending (λ x, timestamp (raw x))) l ∧
  Forall (λ e, ∃ id, id ∈ connection_queue h ∧
                     Py.get id (connections h) = Some e) l ∧
  (length l ≤ length (connection_queue h))%nat.
Proof.
  cbv zeta. unfold get_recent_connections. split; [|split].
  - apply sorted_desc_sorted.
  - apply Forall_forall. intros e He.
    rewrite sorted_desc_perm in He.
    apply list_elem_of_omap in He as (id' & Hin & Hget).
    exists id'. split; [|done]. unfold Py.slice_last in Hin.
    eapply elem_of_sublist; [exact Hin|]. apply sublist_drop.
  - rewrite sorted_desc_length.
    etrans; [apply length_omap|]. apply length_slice_last.
Qed.

(** X15.  A positive limit bounds the listing of recent connections. *)
Theorem recent_connections_limit h limit :
  0 < limit →
  Z.of_nat (length (get_recent_connections h limit)) ≤ limit.
Proof.
  intros Hl. unfold get_recent_connections. rewrite sorted_desc_length.
  pose proof (length_omap (λ id, Py.get id (connections h))
                (Py.slice_last limit (connection_queue h))).
  pose proof (length_slice_last_pos limit (connection_queue h) Hl). lia.
Qed.

Lemma recent_connections_limit_witness :
  0 < 2 ∧
  Z.of_nat (length (get_recent_connections
                      (ingest_all Scenario.small_handler
                         Scenario.four_ingests) 2)) ≤ 2.
Proof.
  assert (0 < 2) as H by lia. split; [exact H|].
  exact (recent_connections_limit _ 2 H).
Defined.

(** X16.  A limit that is not positive does not limit: 0 lists the events
    of the whole queue, and [-k] lists the events of the queue without its
    [k] oldest ids. *)
Theorem recent_connections_nonpositive_limit h k :
  0 ≤ k →
  get_recent_connections h (- k) =
  Py.sorted_desc (λ x, timestamp (raw x))
    (omap (λ id, Py.get id (connections h))
       (drop (Z.to_nat k) (connection_queue h))).
Proof.
  intros Hk. unfold get_recent_connections, Py.slice_last.
  rewrite Z.opp_involutive.
  destruct (Z.ltb_spec k 0); [lia|].
  destruct (Z.min_spec k (Z.of_nat (length (connection_queue h))))
    as [[_ ->]|[Hle ->]]; [done|].
  rewrite Nat2Z.id. rewrite !drop_ge by lia. done.
Qed.

Lemma recent_connections_nonpositive_limit_witness :
  0 ≤ 0 ∧
  length (get_recent_connections
            (ingest_all Scenario.small_handler Scenario.four_ingests) (- 0))
  = 3%nat.
Proof.
  assert (0 ≤ 0) as H by lia. split; [exact H|].
  exact (eq_trans
           (f_equal length
              (recent_connections_nonpositive_limit
                 (ingest_all Scenario.small_handler Scenario.four_ingests)
                 0 H))
           ltac:(vm_compute; reflexivity)).
Defined.

Lemma expired_later ret t1 t2 e :
  (t1 <= t2)%Q → expired ret t1 e = true → expired ret t2 e = true.
Proof.
  unfold expired. cbv zeta. intros Hle H1.
  apply Qltb_lt in H1. apply Qltb_lt. lra.
Qed.

(** X17.  A later sweep absorbs an earlier one: sweeping at [t1] and then
    at [t2 ≥ t1] leaves the handler that one sweep at [t2] leaves; in
    particular a sweep repeated at the same clock changes nothing. *)
Theorem sweep_absorbs_earlier h t1 t2 :
  (t1 <= t2)%Q →
  cleanup_old_connections (cleanup_old_connections h t1) t2
  = cleanup_old_connections h t2.
Proof.
  intros Hle. unfold cleanup_old_connections, set_connections. cbn.
  f_equal. rewrite list_filter_filter. apply list_filter_iff.
  intros ce. split; [tauto|]. intros H2. split; [done|].
  destruct (expired (retention_minutes h) t1 ce.2) eqn:E; [|done].
  apply (expired_later _ t1 t2) in E; [congruence|done].
Qed.

Lemma sweep_absorbs_earlier_witness :
  (1 <= 400)%Q ∧
  length (connections
            (cleanup_old_connections
               (cleanup_old_connections
                  (ingest_all Scenario.small_handler Scenario.four_ingests)
                  1) 400)) = 0%nat.
Proof.
  assert (1 <= 400)%Q as H by discriminate. split; [exact H|].
  exact (eq_trans
           (f_equal (λ h, length (connections h))
              (sweep_absorbs_earlier
                 (ingest_all Scenario.small_handler Scenario.four_ingests)
                 1 400 H))
           ltac:(vm_compute; reflexivity)).
Defined.

(** X18.  [get_process_details] answers [None] exactly for a pid without
    aggregates.  Otherwise it returns the aggregates of the pid, the number
    of stored events of the pid as total, and as recent connections at most
    50 of them, sorted newest first; the threat analysis is present exactly
    when an analyzer is attached. *)
Theorem process_details_listing h now now' p :
  match get_process_details h now now' p with
  | None => Py.get p (process_stats h) = None
  | Some d =>
      Py.get p (process_stats h) = Some (pd_process_info d) ∧
      pd_total_connections d =
        Z.of_nat (length (filter (λ c : EnrichedEvent, pid (raw c) = p)
                            (Py.values (connections h)))) ∧
      Z.of_nat (length (pd_recent_connections d))
        = Z.min 50 (pd_total_connections d) ∧
      Forall (λ c, pid (raw c) = p ∧ c ∈ Py.values (connections h))
        (pd_recent_connections d) ∧
      StronglySorted (Py.descending (λ x, timestamp (raw x)))
        (pd_recent_connections d) ∧
      match threat_detector h with
      | Some _ => is_Some (pd_threat_analysis d)
      | None => pd_threat_analysis d = None
      end ∧
      0 ≤ pd_connection_rate_per_minute d
        ≤ Z.of_nat (length (default [] (connection_rates h !! p)))
  end.
Proof.
  unfold get_process_details.
  destruct (Py.get p (process_stats h)) as [stats|]; [|done]. cbv zeta.
  cbn [pd_process_info pd_total_connections pd_recent_connections
       pd_threat_analysis pd_connection_rate_per_minute].
  split; [done|]. rewrite sorted_desc_length. split; [done|].
  split; [rewrite length_take, sorted_desc_length; lia|].
  split; [|split; [|split]].
  - apply Forall_forall. intros c Hc.
    apply elem_of_take in Hc as (i & Hc & _).
    apply list_elem_of_lookup_2 in Hc. rewrite sorted_desc_perm in Hc.
    by apply list_elem_of_filter in Hc.
  - apply StronglySorted_take, sorted_desc_sorted.
  - destruct (threat_detector h) as [d|]; [by eexists|done].
  - split; [lia|]. apply Nat2Z.inj_le, length_filter.
Qed.

End StoreQueries.

(** ** The broker *)

Section BrokerProperties.
Import WebSocketHandler.

Lemma comprehension_total {A} (p : A → bool) (l : list A) :
  comprehension (λ c, Some (p c)) l = Some (filter (λ c, p c = true) l).
Proof.
  induction l as [|c l IH]; [done|]. cbn [comprehension]. rewrite IH.
  rewrite filter_cons. destruct (p c); [by rewrite decide_True|].
  by rewrite decide_False.
Qed.

Lemma comprehension_ext {A} (f g : A → option bool) (l : list A) :
  (∀ c, f c = g c) → comprehension f l = comprehension g l.
Proof.
  intros Hfg. induction l as [|c l IH]; [done|]. cbn. by rewrite Hfg, IH.
Qed.

Lemma comprehension_sublist {A} (test : A → option bool) (l r : list A) :
  comprehension test l = Some r → r `sublist_of` l.
Proof.
  revert r. induction l as [|c l IH]; intros r; cbn.
  - by intros [= <-].
  - destruct (test c) as [keep|]; [|done].
    destruct (comprehension test l) as [r'|]; [|done].
    intros [= <-]. specialize (IH r' eq_refl).
    destruct keep; by constructor.
Qed.

Lemma bind_comprehension_sublist {A} (test : A → option bool)
    (o : option (list A)) (l r : list A) :
  (∀ l', o = Some l' → l' `sublist_of` l) →
  o ≫= comprehension test = Some r → r `sublist_of` l.
Proof.
  intros Ho. destruct o as [l'|]; [|done]. cbn. intros Hc.
  etrans; [by eapply comprehension_sublist|by apply Ho].
Qed.

Lemma filter_all {A} (P : A → Prop) `{∀ x, Decision (P x)} (l : list A) :
  (∀ x, P x) → filter P l = l.
Proof.
  intros HP. induction l as [|x l IH]; [done|].
  by rewrite filter_cons, decide_True, IH.
Qed.

(** The filters only remove events, whatever their types. *)
Lemma apply_filters_sublist connections filters r :
  apply_filters connections filters = Some r → r `sublist_of` connections.
Proof.
  unfold apply_filters. cbv zeta.
  set (o1 := match active "suspicious_only" filters with
             | Some _ => _ | None => _ end).
  assert (∀ l', o1 = Some l' → l' `sublist_of` connections) as H1.
  { subst o1. destruct (active "suspicious_only" filters).
    - intros l'. by apply bind_comprehension_sublist; intros ? [= <-].
    - by intros ? [= <-]. }
  set (o2 := match active "process_name" filters with
             | Some (JString _) => _ | Some _ => _ | None => _ end).
  assert (∀ l', o2 = Some l' → l' `sublist_of` connections) as H2.
  { subst o2. destruct (active "process_name" filters) as [[]|]; try done.
    intros l'. by apply bind_comprehension_sublist. }
  set (o3 := match active "min_threat_score" filters with
             | Some _ => _ | None => _ end).
  assert (∀ l', o3 = Some l' → l' `sublist_of` connections) as H3.
  { subst o3. destruct (active "min_threat_score" filters); [|done].
    intros l'. by apply bind_comprehension_sublist. }
  destruct (active "destination_ip" filters); [|by apply H3].
  by apply bind_comprehension_sublist.
Qed.

(** X19.  With well-typed filters [apply_filters] does not raise and keeps,
    in their order, exactly the events that pass every active filter:
    flagged suspicious, process name containing the lower-cased pattern,
    score at least the minimum, destination address containing the
    pattern. *)
Theorem apply_filters_conjunction connections filters :
  filters_well_typed filters = true →
  apply_filters connections filters =
  Some (filter (λ c, passes_filters filters c = true) connections).
Proof.
  unfold filters_well_typed, passes_filters, apply_filters. cbv zeta.
  intros Hty.
  destruct (active "suspicious_only" filters) as [v1|];
    destruct (active "process_name" filters) as [[]|];
    cbn in Hty; try discriminate Hty;
    destruct (active "min_threat_score" filters) as [[]|];
    cbn in Hty; try discriminate Hty;
    destruct (active "destination_ip" filters) as [[]|];
    cbn in Hty; try discriminate Hty;
    cbn [mbind option_bind score_at_least];
    repeat (rewrite comprehension_total; cbn [mbind option_bind]);
    f_equal; rewrite ?list_filter_filter;
    first [ apply list_filter_iff | symmetry; apply filter_all ];
    intros c; cbn [default from_option id];
    rewrite ?andb_true_iff; intuition congruence.
Qed.

Lemma apply_filters_conjunction_witness :
  filters_well_typed Further.suspicious_filters = true ∧
  apply_filters
    (ConnectionHandler.get_recent_connections
       (ConnectionHandler.ingest_all Scenario.fresh_handler
          [Scenario.shell_ingest]) 10)
    Further.suspicious_filters =
  Some (filter (λ c, passes_filters Further.suspicious_filters c = true)
          (ConnectionHandler.get_recent_connections
             (ConnectionHandler.ingest_all Scenario.fresh_handler
                [Scenario.shell_ingest]) 10)).
Proof.
  split; [reflexivity|].
  exact (apply_filters_conjunction _ Further.suspicious_filters eq_refl).
Defined.

(** X20.  [handle_get_connections] builds one reply.  A list of
    connections comes with its own length as total and is a sublist of the
    recent connections for the requested limit, 1000 when none is given;
    whatever goes wrong is answered with "Error getting connections". *)
Theorem get_connections_reply store data :
  match handle_get_connections store data with
  | ReplyConnections l total =>
      total = Z.of_nat (length l) ∧
      ∃ limit,
        slice_limit (default (JInt 1000) (Py.get "limit" data)) = Some limit ∧
        l `sublist_of` ConnectionHandler.get_recent_connections store limit
  | ReplyError text => text = Text "Error getting connections"
  end.
Proof.
  unfold handle_get_connections. cbv zeta.
  destruct (slice_limit (default (JInt 1000) (Py.get "limit" data)))
    as [limit|]; [|done].
  destruct (truthy (default (JObject []) (Py.get "filters" data))).
  - destruct (default (JObject []) (Py.get "filters" data)); try done.
    destruct (apply_filters _ _) as [l|] eqn:E; [|done].
    split; [done|]. exists limit. split; [done|].
    by eapply apply_filters_sublist.
  - split; [done|]. by exists limit.
Qed.

Lemma send_message_frames s env c ws m f :
  f ∈ (send_message s env c ws m).2 →
  f_client f = c ∧ f_socket f = ws ∧ f_message f = m ∧
  f_time f = now_check env.
Proof.
  rewrite send_message_cases. cbv zeta.
  destruct (negb _); cbn; [by intros ?%elem_of_nil|].
  destruct (send_ok env); cbn; [|by intros ?%elem_of_nil].
  by intros ->%list_elem_of_singleton.
Qed.

Lemma send_message_count s env c ws m :
  let r := send_message s env c ws m in
  messages_sent r.1 = messages_sent s + Z.of_nat (length r.2) ∧
  (length r.2 ≤ 1)%nat.
Proof.
  cbv zeta. rewrite send_message_cases. cbv zeta.
  destruct (check_rate_limit_spec s (now_check env) c)
    as (_ & _ & _ & _ & Hs).
  destruct (negb _); cbn; [lia|].
  destruct (send_ok env); cbn; lia.
Qed.

(** X22.  [messages_sent] counts the frames that went out: over a run of
    [send_message] calls it grows by the number of frames sent, which is at
    most the number of calls. *)
Theorem messages_sent_counts_frames s calls :
  let r := send_all s calls in
  messages_sent r.1 = messages_sent s + Z.of_nat (length r.2) ∧
  (length r.2 ≤ length calls)%nat.
Proof.
  cbv zeta. unfold send_all.
  induction calls as [|c calls IH] using rev_ind; [cbn; lia|].
  rewrite foldl_snoc, length_app. cbn [length].
  destruct (foldl send_step (s, []) calls) as [s' log].
  cbn [fst snd] in IH. unfold send_step. cbn [fst snd].
  pose proof (send_message_count s' (send_env c) (to_client c)
                (to_socket c) (payload c)) as Hc.
  cbv zeta in Hc.
  destruct (send_message s' (send_env c) (to_client c) (to_socket c)
              (payload c)) as [s'' out].
  cbn [fst snd] in *. rewrite length_app. lia.
Qed.

Lemma each_ignoring_gone_done call answer ps calls :
  each_ignoring_gone call answer ps = (calls, None) → calls = call <$> ps.
Proof.
  revert calls. induction ps as [|p ps IH]; intros calls; cbn.
  - by intros [= <-].
  - destruct (answer p) as [[]|];
      destruct (each_ignoring_gone call answer ps) as [calls' r];
      intros [= <- ->]; by rewrite (IH calls').
Qed.

(** The calls of a kill that ends without exception. *)
Lemma terminate_tree_done os p calls :
  terminate_tree os p = (calls, None) →
  ∃ children,
    os_process os p = None ∧
    os_children os p = inr children ∧
    os_terminate os p = None ∧
    (os_wait os p = None ∨
     (os_wait os p = Some ExnTimeoutExpired ∧ os_kill os p = None)) ∧
    calls = [CallProcess p; CallChildren p]
            ++ (CallTerminate <$> children)
            ++ [CallWaitProcs children]
            ++ (CallKill <$> os_wait_procs os children)
            ++ [CallTerminate p; CallWait p]
            ++ match os_wait os p with
               | Some ExnTimeoutExpired => [CallKill p]
               | _ => []
               end.
Proof.
  unfold terminate_tree.
  destruct (os_process os p); [by intros [= _ ?]|].
  destruct (os_children os p) as [e|children]; [by intros [= _ ?]|].
  destruct (each_ignoring_gone CallTerminate (os_terminate os) children)
    as [c1 [e1|]] eqn:E1; [by intros [= _ ?]|].
  apply each_ignoring_gone_done in E1 as ->.
  destruct (each_ignoring_gone CallKill (os_kill os)
              (os_wait_procs os children)) as [c2 [e2|]] eqn:E2;
    [by intros [= _ ?]|].
  apply each_ignoring_gone_done in E2 as ->.
  destruct (os_terminate os p); [by intros [= _ ?]|].
  destruct (os_wait os p) as [[]|] eqn:Ew; intros H; inversion H;
    subst; clear H.
  - exists children. repeat (split; [done|]). split; [by right|].
    by rewrite <- !app_assoc.
  - exists children. repeat (split; [done|]). split; [by left|].
    by rewrite <- !app_assoc.
Qed.

(** X23.  A [process_killed] reply for pid [n] means that the whole tree
    was signalled in order: the process was looked up, each child was sent
    terminate, the children were waited for and the survivors killed, and
    only then the process itself was sent terminate and waited for.  The
    process is killed after that exactly when the wait timed out; otherwise
    the wait returned and nothing follows it. *)
Theorem process_killed_after_tree s env client_id websocket data n f :
  f ∈ k_frames (handle_kill_process s env client_id websocket data) →
  f_message f = MsgProcessKilled n →
  ∃ children,
    os_children (os env) n = inr children ∧
    (os_wait (os env) n = None ∨
     (os_wait (os env) n = Some ExnTimeoutExpired ∧
      os_kill (os env) n = None)) ∧
    k_os_calls (handle_kill_process s env client_id websocket data) =
      [CallProcess n; CallChildren n]
      ++ (CallTerminate <$> children)
      ++ [CallWaitProcs children]
      ++ (CallKill <$> os_wait_procs (os env) children)
      ++ [CallTerminate n; CallWait n]
      ++ match os_wait (os env) n with
         | Some ExnTimeoutExpired => [CallKill n]
         | _ => []
         end.
Proof.
  unfold handle_kill_process.
  destruct (default (JObject []) (Py.get "data" data));
    try (cbn; by intros ?%elem_of_nil).
  destruct (negb _).
  { cbn. intros Hf%send_message_frames Hm.
    destruct Hf as (_ & _ & Hf & _). congruence. }
  destruct (int_of_json env _) as [m|].
  2:{ cbn. intros Hf%send_message_frames Hm.
      destruct Hf as (_ & _ & Hf & _). congruence. }
  destruct (terminate_tree (os env) m) as [calls r] eqn:E. cbn.
  intros Hf%send_message_frames Hm. destruct Hf as (_ & _ & Hf & _).
  rewrite Hf in Hm.
  destruct r as [[]|]; try discriminate Hm.
  injection Hm as ->.
  apply terminate_tree_done in E as (children & _ & Hc & _ & Hw & ->).
  by exists children.
Qed.

(** A process with two children, of which one survives the first signal;
    the wait for the process returns, so it is not killed. *)
Lemma process_killed_after_tree_witness :
  let f := {| f_client := "client-1"; f_socket := 1%nat; f_time := 10;
              f_message := MsgProcessKilled 4242 |} in
  f ∈ k_frames (handle_kill_process init Further.family_env "client-1"
                  1%nat Further.kill_4242) ∧
  k_os_calls (handle_kill_process init Further.family_env "client-1"
                1%nat Further.kill_4242) =
    [CallProcess 4242; CallChildren 4242; CallTerminate 4243;
     CallTerminate 4244; CallWaitProcs [4243; 4244]; CallKill 4244;
     CallTerminate 4242; CallWait 4242].
Proof.
  intros f.
  assert (f ∈ k_frames (handle_kill_process init Further.family_env
                          "client-1" 1%nat Further.kill_4242)) as Hf
    by (vm_compute; left).
  split; [exact Hf|].
  destruct (process_killed_after_tree init Further.family_env "client-1"
              1%nat Further.kill_4242 4242 f Hf eq_refl)
    as (children & Hc & _ & ->).
  injection Hc as <-. reflexivity.
Defined.

Lemma del_middle {V} (k : string) (v : V) l1 l2 :
  k ∉ Py.keys l1 → Py.del k (l1 ++ (k, v) :: l2) = l1 ++ l2.
Proof.
  unfold Py.keys. induction l1 as [|[k' v'] l1 IH]; cbn; intros Hk.
  - by rewrite decide_True.
  - rewrite not_elem_of_cons in Hk. destruct Hk as [Hne Hk].
    rewrite decide_False by done. by rewrite IH.
Qed.

Lemma omap_singleton {A B} (f : A → option B) (x : A) :
  omap f [x] = match f x with Some y => [y] | None => [] end.
Proof. cbn. by destruct (f x). Qed.

Lemma check_rate_limit_window s s' now c :
  window_of s' c = window_of s c →
  (check_rate_limit s' now c).1 = (check_rate_limit s now c).1.
Proof.
  intros Hw.
  destruct (check_rate_limit_spec s now c) as (-> & _).
  destruct (check_rate_limit_spec s' now c) as (-> & _).
  by rewrite Hw.
Qed.

(** The broadcast after the clients [l1] of the snapshot [l1 ++ l2]. *)
Lemma broadcast_prefix s envs e l1 : ∀ l2,
  clients s = l1 ++ l2 →
  NoDup (Py.keys (clients s)) →
  let r :=
    foldl (λ (acc : t * list Frame) (c : string * WebSocket),
             let '(s', out) :=
               send_message acc.1 (envs c.1) c.1 c.2 (MsgConnection e) in
             (s', acc.2 ++ out))
          (s, []) l1 in
  clients r.1 = filter (λ c, send_raises s envs c.1 = false) l1 ++ l2 ∧
  (∀ c, c ∈ Py.keys l2 → window_of r.1 c = window_of s c) ∧
  r.2 = omap (λ c, if delivers s envs c.1
                   then Some (broadcast_frame envs e c) else None) l1 ∧
  messages_sent r.1 = messages_sent s + Z.of_nat (length r.2).
Proof.
  cbv zeta. induction l1 as [|c l1 IH] using rev_ind; intros l2 Hs Hnd.
  { cbn. split; [done|]. split; [done|]. split; [done|]. lia. }
  rewrite foldl_snoc, omap_app, filter_app. cbn [omap].
  rewrite <- app_assoc in Hs. cbn [app] in Hs.
  destruct (IH (c :: l2) Hs Hnd) as (Hc & Hw & Hf & Hm). clear IH.
  destruct (foldl _ (s, []) l1) as [s' log]. cbn [fst snd] in *.
  assert ((c.1 ∉ Py.keys l1) ∧ (c.1 ∉ Py.keys l2)) as [Hl1 Hl2].
  { rewrite Hs in Hnd. unfold Py.keys in *.
    rewrite fmap_app, fmap_cons in Hnd.
    apply NoDup_app in Hnd as (_ & Hd & Hn).
    apply NoDup_cons in Hn as [Hn _]. split; [|done].
    intros Hin. apply (Hd _ Hin). left. }
  assert (c.1 ∉ Py.keys
            (filter (λ c, send_raises s envs c.1 = false) l1)) as Hl1'.
  { intros Hin. apply Hl1. unfold Py.keys in *.
    apply list_elem_of_fmap in Hin as (x & -> & Hx).
    apply list_elem_of_fmap. exists x. split; [done|].
    by apply list_elem_of_filter in Hx as [_ ?]. }
  assert (window_of s' c.1 = window_of s c.1) as Hwc
    by (apply Hw; unfold Py.keys; cbn; left).
  pose proof (check_rate_limit_window s s' (now_check (envs c.1)) c.1 Hwc)
    as Ha.
  destruct (check_rate_limit_spec s' (now_check (envs c.1)) c.1)
    as (_ & _ & Hcl & _ & Hms).
  assert (∀ c', c' ∈ Py.keys l2 →
            window_of (check_rate_limit s' (now_check (envs c.1)) c.1).2 c'
            = window_of s c') as Hw'.
  { intros c' Hc'. rewrite check_rate_limit_other.
    - apply Hw. unfold Py.keys in *. cbn. by right.
    - intros <-. by apply Hl2. }
  assert (delivers s envs c.1 =
          (check_rate_limit s' (now_check (envs c.1)) c.1).1 &&
          send_ok (envs c.1)) as Hd
    by (unfold delivers; by rewrite <- Ha).
  assert (send_raises s envs c.1 =
          (check_rate_limit s' (now_check (envs c.1)) c.1).1 &&
          negb (send_ok (envs c.1))) as Hr
    by (unfold send_raises; by rewrite <- Ha).
  clear Ha. rewrite omap_singleton, Hd. clear Hd.
  rewrite send_message_cases. cbv zeta.
  destruct (check_rate_limit s' (now_check (envs c.1)) c.1) as [a s''].
  cbn [fst snd] in *.
  destruct a; cbn [negb andb] in *.
  - destruct (send_ok (envs c.1)) eqn:Eok; cbn [negb fst snd] in *.
    + rewrite filter_cons_True by done. rewrite filter_nil.
      cbn [clients sent messages_sent].
      rewrite Hcl, Hc, <- app_assoc. split; [done|].
      split; [intros c' Hc'; rewrite window_of_sent; by apply Hw'|].
      rewrite Hf. split; [done|].
      rewrite !length_app. cbn [length]. rewrite Hms, Hm, Hf. lia.
    + rewrite filter_cons_False by (by rewrite Hr). rewrite filter_nil.
      cbn [clients cleanup_client messages_sent].
      rewrite Hcl, Hc, !app_nil_r. destruct c as [k v]. cbn [fst] in *.
      rewrite del_middle by done. split; [done|].
      split.
      { intros c' Hc'. rewrite window_of_cleanup_other; [by apply Hw'|].
        intros <-. by apply Hl2. }
      rewrite Hf. split; [done|]. rewrite Hms, Hm, Hf. lia.
  - rewrite filter_cons_True by done. rewrite filter_nil.
    cbn [fst snd]. rewrite Hcl, Hc, <- app_assoc, !app_nil_r.
    split; [done|]. split; [done|]. rewrite Hf. split; [done|].
    rewrite Hms, Hm, Hf. lia.
Qed.

(** X21.  [broadcast_connection] walks a snapshot of the clients, and what
    happens to one client does not depend on the others: the frames that go
    out are, in the order of the clients, those to the clients under their
    rate limit whose send returns; exactly the clients whose send raises are
    unregistered; and [messages_sent] grows by the number of frames. *)
Theorem broadcast_reaches_each_client s envs e :
  NoDup (Py.keys (clients s)) →
  let r := broadcast_connection s envs e in
  r.2 = omap (λ c, if delivers s envs c.1
                   then Some (broadcast_frame envs e c) else None)
          (clients s) ∧
  clients r.1 = filter (λ c, send_raises s envs c.1 = false) (clients s) ∧
  messages_sent r.1 = messages_sent s + Z.of_nat (length r.2).
Proof.
  intros Hnd. cbv zeta. unfold broadcast_connection.
  destruct (broadcast_prefix s envs e (clients s) []
              (eq_sym (app_nil_r _)) Hnd) as (Hc & _ & Hf & Hm).
  rewrite app_nil_r in Hc. done.
Qed.

Lemma broadcast_reaches_each_client_witness :
  NoDup (Py.keys (clients Further.two_clients)) ∧
  (broadcast_connection Further.two_clients Further.first_raises
     (ConnectionHandler.process_connection_event Scenario.fresh_handler
        Scenario.shell_ingest.1 Scenario.shell_ingest.2).2).2 =
  omap (λ c, if delivers Further.two_clients Further.first_raises c.1
             then Some (broadcast_frame Further.first_raises
                          (ConnectionHandler.process_connection_event
                             Scenario.fresh_handler Scenario.shell_ingest.1
                             Scenario.shell_ingest.2).2 c)
             else None)
    (clients Further.two_clients).
Proof.
  assert (NoDup (Py.keys (clients Further.two_clients))) as Hnd.
  { apply (bool_decide_unpack _). vm_compute. exact I. }
  split; [exact Hnd|].
  exact (proj1 (broadcast_reaches_each_client Further.two_clients
                  Further.first_raises _ Hnd)).
Defined.

End BrokerProperties.
